(** * satel_integra_ext: the Satel Integra emulator (simulator.py)

    A shallow embedding of [SatelIntegraEmulator] and the properties of
    its command handlers, its response fan-out and its per-connection
    receive loop.

    The emulator imports its codec from the [satel_integra] package
    ([SatelCommand], [SatelMessage], [partition_bytes], [AlarmState]).
    That package is an interface here: every definition and every general
    theorem is stated for an arbitrary implementation of it.  One
    implementation, written after the protocol description, follows the
    emulator and is used to run it on concrete frames. *)

From Stdlib Require Import ZArith List Bool Lia.
From Stdlib Require Import Strings.Byte.
From Stdlib Require Import Floats.SpecFloat.
Import ListNotations.
Local Open Scope Z_scope.

Set Implicit Arguments.

(* ================================================================= *)
(** ** Python values used by the emulator *)

Module Py.

(** A [dict] with integer keys.  Iteration ([items]) follows insertion
    order; assigning to an existing key keeps its position, assigning
    to a new key appends it. *)
Section Dict.
Variable V : Type.

Definition dict := list (Z * V).

Fixpoint get (k : Z) (d : dict) : option V :=
  match d with
  | [] => None
  | (k', v) :: r => if k =? k' then Some v else get k r
  end.

(** [d[k] = v] *)
Fixpoint set (k : Z) (v : V) (d : dict) : dict :=
  match d with
  | [] => [(k, v)]
  | (k', v') :: r =>
      if k =? k' then (k, v) :: r else (k', v') :: set k v r
  end.

Definition keys (d : dict) : list Z := map fst d.

(** [[i for i, x in d.items() if p(x)]] *)
Definition keys_where (p : V -> bool) (d : dict) : list Z :=
  map fst (filter (fun kv => p (snd kv)) d).
End Dict.

(** [range(lo, hi)] *)
Definition range (lo hi : Z) : list Z :=
  map Z.of_nat (seq (Z.to_nat lo) (Z.to_nat (hi - lo))).

(** [{i: v for i in range(lo, hi)}] *)
Definition dict_of_range (V : Type) (lo hi : Z) (v : V) : dict V :=
  map (fun i => (i, v)) (range lo hi).

(** The double precision numbers of Python's [float]. *)
Definition prec : Z := 53.
Definition emax : Z := 1024.
Definition float := spec_float.
Definition fadd : float -> float -> float := SFadd prec emax.
Definition fmul : float -> float -> float := SFmul prec emax.
(** [x <= y] *)
Definition fle : float -> float -> bool := SFleb.

(** [float(z)] for an integer that a double holds exactly. *)
Definition float_of_int (z : Z) : float := binary_normalize prec emax z 0 false.

(** [int(x)]: truncation toward zero; [None] where Python raises
    (infinities and NaN). *)
Definition int_of_float (x : float) : option Z :=
  match x with
  | S754_zero _ => Some 0
  | S754_finite s m e =>
      let a := match e with
               | Zneg p => Z.pos m / 2 ^ Z.pos p
               | _ => Z.pos m * 2 ^ e
               end in
      Some (if s then - a else a)
  | _ => None
  end.

(** [round(x)] with one argument: the nearest integer, ties to even. *)
Definition round (x : float) : option Z :=
  match x with
  | S754_zero _ => Some 0
  | S754_finite s m e =>
      let a := match e with
               | Zneg p =>
                   let d := 2 ^ Z.pos p in
                   let q := Z.pos m / d in
                   let r := Z.pos m mod d in
                   match 2 * r ?= d with
                   | Lt => q
                   | Gt => q + 1
                   | Eq => if Z.even q then q else q + 1
                   end
               | _ => Z.pos m * 2 ^ e
               end in
      Some (if s then - a else a)
  | _ => None
  end.

(** One element of [bytearray([...])]: an int in [range(256)]. *)
Definition byte_of_int (z : Z) : option byte :=
  if (0 <=? z) && (z <? 256) then Byte.of_N (Z.to_N z) else None.

Definition int_of_byte (b : byte) : Z := Z.of_N (Byte.to_N b).

End Py.

(* ================================================================= *)
(** ** The [satel_integra] package, as the emulator sees it *)

(** The members of [SatelCommand] the emulator names; [OTHER] stands for
    every other command code a decoded frame can carry. *)
Inductive SatelCommand : Type :=
| CMD_START_MONITORING | DEVICE_INFO
| CMD_ARM_MODE_0 | CMD_ARM_MODE_1 | CMD_ARM_MODE_2 | CMD_ARM_MODE_3
| CMD_DISARM | CMD_OUTPUT_ON | CMD_OUTPUT_OFF | CMD_READ_ZONE_TEMP
| RESULT | ZONE_TEMP | OUTPUT_STATE
| ARMED_MODE0 | ARMED_MODE1 | ARMED_MODE2 | ARMED_MODE3
| OTHER (code : byte).

Module AlarmState.
Inductive t : Type :=
| DISARMED | ARMED_MODE0 | ARMED_MODE1 | ARMED_MODE2 | ARMED_MODE3.

Definition eqb (a b : t) : bool :=
  match a, b with
  | DISARMED, DISARMED | ARMED_MODE0, ARMED_MODE0 | ARMED_MODE1, ARMED_MODE1
  | ARMED_MODE2, ARMED_MODE2 | ARMED_MODE3, ARMED_MODE3 => true
  | _, _ => false
  end.
End AlarmState.

(** [SatelMessage(cmd, msg_data)] *)
Record SatelMessage : Type := Message {
  cmd : SatelCommand;
  msg_data : list byte
}.

(** What the emulator calls in the package.  [None] is a raised
    exception. *)
Class SatelLibrary : Type := {
  (** [SatelMessage.decode_frame(data)] *)
  decode_frame : list byte -> option SatelMessage;
  (** [message.encode_frame()] *)
  encode_frame : SatelMessage -> list byte;
  (** [message.list_set_bits(offset, length)] *)
  list_set_bits : SatelMessage -> Z -> Z -> option (list Z);
  (** [partition_bytes(items, length)] *)
  partition_bytes : list Z -> Z -> option (list byte);
  (** [SatelMessage(cmd, partitions=items)] *)
  Message_partitions : SatelCommand -> list Z -> SatelMessage;
  (** [SatelMessage(cmd, outputs=items)] *)
  Message_outputs : SatelCommand -> list Z -> SatelMessage
}.

(* ================================================================= *)
(** ** The emulator object and its surroundings *)

(** A client is the [writer] of its connection; [peername] is the
    writer's identity. *)
Definition Writer := nat.

Inductive Exception : Type :=
| KeyError
| IndexError
| ValueError
| WriteError (w : Writer)     (* raised by [writer.write] *)
| DrainError (w : Writer)     (* raised by [writer.drain] *)
| ReadFailure                 (* raised by [reader.readuntil] *)
| DecodeError                 (* raised by [decode_frame] *)
| LibraryError                (* raised inside another library call *)
| RuntimeError.               (* raised by the iterator of a set that changed size *)

Inductive LogRecord : Type :=
| info_new_connection (addr : Writer)
| debug_received (addr : Writer) (m : SatelMessage)
| debug_sent (addr : Writer) (m : SatelMessage)
| warning_unknown_command (c : SatelCommand)
| error_processing_command (e : Exception)
| info_setting_outputs (outputs : list Z) (state : bool)
| info_connection_closed (addr : Writer)
| error_notifying_client (e : Exception).

(** The attributes [__init__] sets ([host] and [port] are not used by
    any handler).  [clients] is a Python [set]: no duplicates, iterated
    in the order of this list. *)
Record SatelIntegraEmulator : Type := Emulator {
  clients : list Writer;
  zones : Py.dict bool;
  outputs : Py.dict bool;
  partitions : Py.dict AlarmState.t
}.

(** The emulator together with everything its methods touch. *)
Record World : Type := mkWorld {
  self : SatelIntegraEmulator;
  (** frames accepted by [writer.write], oldest first *)
  wire : list (Writer * list byte);
  (** writers on which [close()] was called *)
  closed : list Writer;
  (** records handed to [logger], oldest first *)
  logged : list LogRecord;
  (** whether [writer.write] raises for this writer *)
  write_raises : Writer -> bool;
  (** whether [writer.drain] raises for this writer *)
  drain_raises : Writer -> bool;
  (** the successive values of [random.uniform(21, 24)] and how many
      were drawn *)
  uniform_21_24 : nat -> Py.float;
  drawn : nat
}.

Definition init : SatelIntegraEmulator :=
  {| clients := [];
     zones := Py.dict_of_range 1 33 false;
     outputs := Py.dict_of_range 1 33 false;
     partitions := Py.dict_of_range 1 5 AlarmState.DISARMED |}.

(* ----------------------------------------------------------------- *)
(** *** Methods run in a state-and-exception monad

    A raised exception keeps the state reached so far: Python does not
    undo the assignments or the writes made before a [raise]. *)

Inductive result (A : Type) : Type :=
| Return (a : A)
| Raise (e : Exception).
Arguments Raise {A} e.

Definition M (A : Type) : Type := World -> result A * World.

Definition ret {A} (a : A) : M A := fun s => (Return a, s).
Definition raise {A} (e : Exception) : M A := fun s => (Raise e, s).
Definition bind {A B} (c : M A) (k : A -> M B) : M B :=
  fun s => match c s with
           | (Return a, s') => k a s'
           | (Raise e, s') => (Raise e, s')
           end.

Declare Scope py_scope.
Delimit Scope py_scope with py.
Notation "x <- c ;; k" := (bind c (fun x => k))
  (at level 61, c at next level, right associativity) : py_scope.
Notation "c ;; k" := (bind c (fun _ => k))
  (at level 61, right associativity) : py_scope.
Local Open Scope py_scope.

(** [try: body  except Exception as e: handler(e)] *)
Definition try_except {A} (body : M A) (handler : Exception -> M A) : M A :=
  fun s => match body s with
           | (Return a, s') => (Return a, s')
           | (Raise e, s') => handler e s'
           end.

(** [for x in l: body(x)] *)
Fixpoint for_each {A} (l : list A) (body : A -> M unit) : M unit :=
  match l with
  | [] => ret tt
  | x :: r => body x ;; for_each r body
  end.

Definition or_raise {A} (o : option A) (e : Exception) : M A :=
  match o with
  | Some a => ret a
  | None => raise e
  end.

(** Record updates. *)
Definition with_self (s : World) (e : SatelIntegraEmulator) : World :=
  mkWorld e (wire s) (closed s) (logged s)
          (write_raises s) (drain_raises s) (uniform_21_24 s) (drawn s).
Definition with_wire (s : World) (l : list (Writer * list byte)) : World :=
  mkWorld (self s) l (closed s) (logged s)
          (write_raises s) (drain_raises s) (uniform_21_24 s) (drawn s).
Definition with_closed (s : World) (l : list Writer) : World :=
  mkWorld (self s) (wire s) l (logged s)
          (write_raises s) (drain_raises s) (uniform_21_24 s) (drawn s).
Definition with_logged (s : World) (l : list LogRecord) : World :=
  mkWorld (self s) (wire s) (closed s) l
          (write_raises s) (drain_raises s) (uniform_21_24 s) (drawn s).
Definition with_drawn (s : World) (n : nat) : World :=
  mkWorld (self s) (wire s) (closed s) (logged s)
          (write_raises s) (drain_raises s) (uniform_21_24 s) n.

Definition get_self : M SatelIntegraEmulator := fun s => (Return (self s), s).

Definition set_self (e : SatelIntegraEmulator) : M unit :=
  fun s => (Return tt, with_self s e).

Definition logger (r : LogRecord) : M unit :=
  fun s => (Return tt, with_logged s (logged s ++ [r])).

(** [writer.write(frame)] *)
Definition writer_write (w : Writer) (frame : list byte) : M unit :=
  fun s => if write_raises s w then (Raise (WriteError w), s)
           else (Return tt, with_wire s (wire s ++ [(w, frame)])).

(** [await writer.drain()] *)
Definition writer_drain (w : Writer) : M unit :=
  fun s => if drain_raises s w then (Raise (DrainError w), s) else (Return tt, s).

(** [writer.close()] *)
Definition writer_close (w : Writer) : M unit :=
  fun s => (Return tt, with_closed s (closed s ++ [w])).

(** [random.uniform(21, 24)] *)
Definition random_uniform_21_24 : M Py.float :=
  fun s => (Return (uniform_21_24 s (drawn s)), with_drawn s (S (drawn s))).

Definition mem (w : Writer) (l : list Writer) : bool := existsb (Nat.eqb w) l.

(** [self.clients.add(writer)] *)
Definition clients_add (w : Writer) : M unit :=
  e <- get_self ;;
  set_self (Emulator (if mem w (clients e) then clients e else clients e ++ [w])
                     (zones e) (outputs e) (partitions e)).

(** [self.clients.remove(writer)] *)
Definition clients_remove (w : Writer) : M unit :=
  e <- get_self ;;
  if mem w (clients e)
  then set_self (Emulator (filter (fun c => negb (Nat.eqb w c)) (clients e))
                          (zones e) (outputs e) (partitions e))
  else raise KeyError.

(** [self.partitions[k] = v] *)
Definition partitions_setitem (k : Z) (v : AlarmState.t) : M unit :=
  e <- get_self ;;
  set_self (Emulator (clients e) (zones e) (outputs e) (Py.set k v (partitions e))).

(** [self.outputs[k] = v] *)
Definition outputs_setitem (k : Z) (v : bool) : M unit :=
  e <- get_self ;;
  set_self (Emulator (clients e) (zones e) (Py.set k v (outputs e)) (partitions e)).

(* ================================================================= *)
(** ** The methods of [SatelIntegraEmulator] *)

Definition RESPONSE_OK : SatelMessage := Message RESULT [x00].

Definition RESPONSE_DEVICE_INFO : SatelMessage :=
  Message DEVICE_INFO
    [x01; x01; x00; x52; x75; x63; x68; x20; x77; x69; x61; x74; x72; x6f;
     x6c; x61; x70; x20; x20].

(** The dict [ALARMSTATE_TO_CMD]; [None] is a missing key. *)
Definition ALARMSTATE_TO_CMD (s : AlarmState.t) : option SatelCommand :=
  match s with
  | AlarmState.ARMED_MODE0 => Some ARMED_MODE0
  | AlarmState.ARMED_MODE1 => Some ARMED_MODE1
  | AlarmState.ARMED_MODE2 => Some ARMED_MODE2
  | AlarmState.ARMED_MODE3 => Some ARMED_MODE3
  | AlarmState.DISARMED => None
  end.

Section Emulator.
Context {lib : SatelLibrary}.

(** [send_response(message, client=None)]: one write per target, the
    target being [client] when given and every member of [self.clients]
    otherwise.  Nothing in the loop catches an exception. *)
Definition send_response (message : SatelMessage) (client : option Writer) : M unit :=
  let frame := encode_frame message in
  e <- get_self ;;
  for_each (match client with Some c => [c] | None => clients e end)
           (fun writer =>
              writer_write writer frame ;;
              logger (debug_sent writer message)).

Definition broadcast_outputs : M unit :=
  e <- get_self ;;
  let enabled_outputs := Py.keys_where (fun state => state) (outputs e) in
  let message := Message_outputs OUTPUT_STATE enabled_outputs in
  send_response message None.

Definition broadcast_partitions (state : AlarmState.t) : M unit :=
  e <- get_self ;;
  let parts := Py.keys_where (fun part_state => AlarmState.eqb part_state state)
                             (partitions e) in
  c <- or_raise (ALARMSTATE_TO_CMD state) KeyError ;;
  let message := Message_partitions c parts in
  send_response message None.

Definition start_monitoring (message : SatelMessage) (writer : Writer) : M unit :=
  send_response RESPONSE_OK (Some writer) ;;
  broadcast_outputs ;;
  broadcast_partitions AlarmState.ARMED_MODE0.

Definition device_info (message : SatelMessage) (writer : Writer) : M unit :=
  send_response RESPONSE_DEVICE_INFO (Some writer).

Definition arm (message : SatelMessage) : M unit :=
  parts <- or_raise (list_set_bits message 8 4) LibraryError ;;
  for_each parts (fun partition =>
                    partitions_setitem partition AlarmState.ARMED_MODE0) ;;
  send_response RESPONSE_OK None ;;
  broadcast_partitions AlarmState.ARMED_MODE0.

Definition disarm (message : SatelMessage) : M unit :=
  parts <- or_raise (list_set_bits message 8 4) LibraryError ;;
  for_each parts (fun partition =>
                    partitions_setitem partition AlarmState.DISARMED) ;;
  send_response RESPONSE_OK None ;;
  broadcast_partitions AlarmState.ARMED_MODE0.

Definition is_CMD_OUTPUT_ON (c : SatelCommand) : bool :=
  match c with CMD_OUTPUT_ON => true | _ => false end.

Definition set_output (message : SatelMessage) : M unit :=
  outs <- or_raise (list_set_bits message 8 32) LibraryError ;;
  let state := is_CMD_OUTPUT_ON (cmd message) in
  for_each outs (fun output => outputs_setitem output state) ;;
  logger (info_setting_outputs outs state) ;;
  send_response RESPONSE_OK None ;;
  broadcast_outputs.

(** [int((temp + 55) * 2)] *)
Definition temperature_code (temp : Py.float) : option Z :=
  Py.int_of_float (Py.fmul (Py.fadd temp (Py.float_of_int 55)) (Py.float_of_int 2)).

(** [bytearray([a, b, c])] *)
Definition bytearray3 (a b c : Z) : option (list byte) :=
  match Py.byte_of_int a, Py.byte_of_int b, Py.byte_of_int c with
  | Some x, Some y, Some z => Some [x; y; z]
  | _, _, _ => None
  end.

Definition read_temperature (message : SatelMessage) (writer : Writer) : M unit :=
  zone <- or_raise (nth_error (msg_data message) 0) IndexError ;;
  temp <- random_uniform_21_24 ;;
  code <- or_raise (temperature_code temp) ValueError ;;
  data <- or_raise (bytearray3 (Py.int_of_byte zone) 0 code) ValueError ;;
  let response := Message ZONE_TEMP data in
  send_response response (Some writer).

(** The [if]/[elif] chain of [process_command], inside its [try]. *)
Definition dispatch (message : SatelMessage) (writer : Writer) : M unit :=
  match cmd message with
  | CMD_START_MONITORING => start_monitoring message writer
  | DEVICE_INFO => device_info message writer
  | CMD_ARM_MODE_0 | CMD_ARM_MODE_1 | CMD_ARM_MODE_2 | CMD_ARM_MODE_3 =>
      arm message
  | CMD_DISARM => disarm message
  | CMD_OUTPUT_ON | CMD_OUTPUT_OFF => set_output message
  | CMD_READ_ZONE_TEMP => read_temperature message writer
  | c => logger (warning_unknown_command c)
  end.

Definition process_command (message : SatelMessage) (writer : Writer) : M unit :=
  try_except (dispatch message writer)
             (fun e => logger (error_processing_command e)).

(* ----------------------------------------------------------------- *)
(** *** [handle_client]

    The coroutine is cut at its [await reader.readuntil(...)]: what the
    reader gives decides one turn of the [while True] loop.  No handler
    suspends, so a turn runs without interleaving. *)

Inductive Read : Type :=
| Data (data : list byte)   (* [readuntil] returned these bytes *)
| Failed.                   (* [readuntil] raised (peer closed, reset, ...) *)

(** The lines before the [try]. *)
Definition handle_client_enter (writer : Writer) : M unit :=
  logger (info_new_connection writer) ;;
  clients_add writer.

(** One turn of the loop body; [true]: the loop goes round again,
    [false]: [break]. *)
Definition handle_client_turn (writer : Writer) (r : Read) : M bool :=
  match r with
  | Failed => raise ReadFailure
  | Data [] => ret false
  | Data data =>
      message <- or_raise (decode_frame data) DecodeError ;;
      logger (debug_received writer message) ;;
      process_command message writer ;;
      ret true
  end.

(** The [finally] block. *)
Definition handle_client_finally (writer : Writer) : M unit :=
  clients_remove writer ;;
  writer_close writer ;;
  logger (info_connection_closed writer).

(** One read of a connection whose loop is running, with the bare
    [except: pass] and the [finally] around it; [true]: the loop is
    still running afterwards. *)
Definition handle_client_step (writer : Writer) (r : Read) : M bool :=
  go_on <- try_except (handle_client_turn writer r) (fun _ => ret false) ;;
  if go_on : bool then ret true
  else handle_client_finally writer ;; ret false.

(** The whole coroutine on the reads it is given, one after the other;
    [true]: it is waiting for the next read. *)
Fixpoint handle_client_loop (writer : Writer) (reads : list Read) : M bool :=
  match reads with
  | [] => ret true
  | r :: rest =>
      go_on <- handle_client_step writer r ;;
      if go_on : bool then handle_client_loop writer rest else ret false
  end.

Definition handle_client (writer : Writer) (reads : list Read) : M bool :=
  handle_client_enter writer ;;
  handle_client_loop writer reads.

(** The server started by [run]: every accepted connection gets its
    own [handle_client]; connections are accepted and read in any
    order, and the loop of a connection runs from its [clients.add] to
    its [clients.remove]. *)
Inductive Event : Type :=
| Accept (writer : Writer)
| Readuntil (writer : Writer) (r : Read).

Definition serve (s : World) (ev : Event) : World :=
  match ev with
  | Accept writer => snd (handle_client_enter writer s)
  | Readuntil writer r =>
      if mem writer (clients (self s))
      then snd (handle_client_step writer r s)
      else s
  end.

Definition run (evs : list Event) (s : World) : World := fold_left serve evs s.

(* ----------------------------------------------------------------- *)
(** *** [notify_state_change]

    The only method that suspends inside a loop over [self.clients]:
    its [await client.drain()] hands control to the event loop, and
    the loop runs over the set itself, not over a copy of it. *)

(** [for client in self.clients: body(client)] when the set can change
    between two turns.  The iterator of a set remembers the size [used]
    the set had when the loop started and its position [pos]; each call
    of [next] raises RuntimeError (Set changed size during iteration)
    when the set has another size by then, and gives the member at its
    position otherwise (a set that was changed and has its old size
    again is not noticed: the loop goes on from the same position).  A
    set of size [used] is exhausted after [used] turns, which is what
    [turns] starts from. *)
Fixpoint for_each_client (used turns pos : nat) (body : Writer -> M unit) : M unit :=
  e <- get_self ;;
  if negb (Nat.eqb (length (clients e)) used) then raise RuntimeError
  else match turns, nth_error (clients e) pos with
       | S turns', Some client =>
           body client ;; for_each_client used turns' (S pos) body
       | _, _ => ret tt
       end.

(** [await client.drain()]: while the coroutine is suspended the server
    serves the events [meanwhile] of the other tasks (none when [drain]
    does not suspend); then [drain] returns or raises. *)
Definition await_drain (meanwhile : list Event) (client : Writer) : M unit :=
  (fun s => (Return tt, run meanwhile s)) ;;
  writer_drain client.

(** [notify_state_change(command, changed_items)]: each client is
    written and drained inside its own [try], the [for] statement itself
    is outside of it.  [meanwhile client] is what the other tasks do
    during the drain of [client]. *)
Definition notify_state_change (command : SatelCommand) (changed_items : list Z)
    (meanwhile : Writer -> list Event) : M unit :=
  data <- or_raise (partition_bytes changed_items 4) LibraryError ;;
  let message := Message command data in
  let encoded_message := encode_frame message in
  e <- get_self ;;
  for_each_client (length (clients e)) (length (clients e)) 0
    (fun client =>
       try_except (writer_write client encoded_message ;;
                   await_drain (meanwhile client) client)
                  (fun ex => logger (error_notifying_client ex))).

End Emulator.

(* ================================================================= *)
(** ** An implementation of the [satel_integra] interface

    The package itself is not part of the emulator's sources; the
    functions below follow its description (frame layout, bitmask
    layout). *)

Module SpecLibrary.

(** Modelled from the spec: the numeric command codes of [SatelCommand],
    which the description keeps symbolic.  The members are numbered in
    the order of their declaration above; nothing below depends on the
    numbers, only on their being distinct. *)
Definition command_code (c : SatelCommand) : byte :=
  match c with
  | CMD_START_MONITORING => x01 | DEVICE_INFO => x02
  | CMD_ARM_MODE_0 => x03 | CMD_ARM_MODE_1 => x04
  | CMD_ARM_MODE_2 => x05 | CMD_ARM_MODE_3 => x06
  | CMD_DISARM => x07 | CMD_OUTPUT_ON => x08 | CMD_OUTPUT_OFF => x09
  | CMD_READ_ZONE_TEMP => x0a | RESULT => x0b | ZONE_TEMP => x0c
  | OUTPUT_STATE => x0d
  | ARMED_MODE0 => x0e | ARMED_MODE1 => x0f
  | ARMED_MODE2 => x10 | ARMED_MODE3 => x11
  | OTHER b => b
  end.

Definition command_of_code (b : byte) : SatelCommand :=
  match b with
  | x01 => CMD_START_MONITORING | x02 => DEVICE_INFO
  | x03 => CMD_ARM_MODE_0 | x04 => CMD_ARM_MODE_1
  | x05 => CMD_ARM_MODE_2 | x06 => CMD_ARM_MODE_3
  | x07 => CMD_DISARM | x08 => CMD_OUTPUT_ON | x09 => CMD_OUTPUT_OFF
  | x0a => CMD_READ_ZONE_TEMP | x0b => RESULT | x0c => ZONE_TEMP
  | x0d => OUTPUT_STATE
  | x0e => ARMED_MODE0 | x0f => ARMED_MODE1
  | x10 => ARMED_MODE2 | x11 => ARMED_MODE3
  | _ => OTHER b
  end.

(** The two bytes every frame ends with ([b'\xFE\x0D'] in
    [handle_client]). *)
Definition terminator : list byte := [xfe; x0d].

(** Modelled from the spec: [FrameCodec.encode], absent from the
    sources: the command byte first, then the payload, then the
    terminator. *)
Definition encode (m : SatelMessage) : list byte :=
  command_code (cmd m) :: msg_data m ++ terminator.

Definition bytes_eqb (a b : list byte) : bool :=
  if list_eq_dec Byte.byte_eq_dec a b then true else false.

(** Modelled from the spec: [FrameCodec.decode], absent from the
    sources: a chunk shorter than a command byte and the terminator, or
    not ending with the terminator, is rejected. *)
Definition decode (data : list byte) : option SatelMessage :=
  match data with
  | [] => None
  | c :: rest =>
      let n := (length rest - 2)%nat in
      if (2 <=? length rest)%nat && bytes_eqb (skipn n rest) terminator
      then Some (Message (command_of_code c) (firstn n rest))
      else None
  end.

(** The bits of a byte, most significant first. *)
Definition bits_of_byte (b : byte) : list bool :=
  map (fun i => N.testbit (Byte.to_N b) i) [7; 6; 5; 4; 3; 2; 1; 0]%N.

(** The 1-based positions of the [true] entries, counting from [i]. *)
Fixpoint set_positions (i : Z) (bits : list bool) : list Z :=
  match bits with
  | [] => []
  | b :: r => (if b then [i] else []) ++ set_positions (i + 1) r
  end.

(** Modelled from the spec: [BitsetCodec.decode_indices], absent from
    the sources: the 1-based indices of the bits set in the bitmask that
    starts at byte [skip_bytes], most significant bit first within each
    byte, the first scanned bit being index 1.  The third argument is
    the width of the bitmask in bytes, as the table of handlers has it
    (offset 8, width 4 bytes; offset 8, width 32 bytes); a payload
    shorter than [skip_bytes + width] is a handler error. *)
Definition decode_indices (payload : list byte) (skip_bytes width : Z) : option (list Z) :=
  if Z.of_nat (length payload) <? skip_bytes + width then None
  else Some (set_positions 1
               (flat_map bits_of_byte
                  (firstn (Z.to_nat width) (skipn (Z.to_nat skip_bytes) payload)))).

(** The byte whose bits, most significant first, are [bits]. *)
Definition byte_of_bits (bits : list bool) : byte :=
  match Byte.of_N (fold_left (fun acc (b : bool) => 2 * acc + (if b then 1 else 0))%N
                             bits 0%N) with
  | Some b => b
  | None => x00
  end.

(** A buffer of [byte_count] bytes with the bit of each index set. *)
Definition set_bits (indices : list Z) (byte_count : Z) : list byte :=
  map (fun k => byte_of_bits
                  (map (fun j => existsb (Z.eqb (8 * Z.of_nat k + j)) indices)
                       [1; 2; 3; 4; 5; 6; 7; 8]))
      (seq 0 (Z.to_nat byte_count)).

(** Modelled from the spec: [BitsetCodec.encode_indices], absent from
    the sources: the inverse of [decode_indices]; an index outside
    [1, byte_count * 8] fails. *)
Definition encode_indices (indices : list Z) (byte_count : Z) : option (list byte) :=
  if forallb (fun i => (1 <=? i) && (i <=? 8 * byte_count)) indices
  then Some (set_bits indices byte_count)
  else None.

(** Modelled from the spec: the [SatelMessage] constructor with the
    [partitions=] or [outputs=] keyword, absent from the sources: the
    payload is the bitmask of the listed indices, 4 bytes for
    partitions and 32 bytes for outputs, the widths the handlers
    decode. *)
#[export] Instance library : SatelLibrary := {
  decode_frame := decode;
  encode_frame := encode;
  list_set_bits m offset len := decode_indices (msg_data m) offset len;
  partition_bytes := encode_indices;
  Message_partitions c items := Message c (set_bits items 4);
  Message_outputs c items := Message c (set_bits items 32)
}.

End SpecLibrary.

(** A world in which no write and no drain raises and every draw is
    [temp]. *)
Definition calm (e : SatelIntegraEmulator) (temp : Py.float) : World :=
  mkWorld e [] [] [] (fun _ => false) (fun _ => false) (fun _ => temp) 0.

(** 21.0 and 21.375 (= 171/8) as doubles: 53-bit mantissas with
    exponent -48. *)
Definition temp_21 : Py.float := S754_finite false (21 * 2 ^ 48) (-48).
Definition temp_21_375 : Py.float := S754_finite false (171 * 2 ^ 45) (-48).

(* ================================================================= *)
(** ** Closed forms of the loops and of the handlers' effects *)

(** [for k in ks: d[k] = v] *)
Definition set_all (V : Type) (ks : list Z) (v : V) (d : Py.dict V) : Py.dict V :=
  fold_left (fun acc k => Py.set k v acc) ks d.

(** The targets written before the first write that raises. *)
Fixpoint reached (raises : Writer -> bool) (targets : list Writer) : list Writer :=
  match targets with
  | [] => []
  | w :: r => if raises w then [] else w :: reached raises r
  end.

(** The first target whose write raises. *)
Fixpoint first_raising (raises : Writer -> bool) (targets : list Writer) : option Writer :=
  match targets with
  | [] => None
  | w :: r => if raises w then Some w else first_raising raises r
  end.

(** The world after the writes and the log records of one
    [send_response] to [targets]. *)
Definition after_send (lib : SatelLibrary) (message : SatelMessage)
    (targets : list Writer) (s : World) : World :=
  let got := reached (write_raises s) targets in
  with_logged
    (with_wire s (wire s ++ map (fun c => (c, encode_frame message)) got))
    (logged s ++ map (fun c => debug_sent c message) got).

Definition is_arm (c : SatelCommand) : bool :=
  match c with
  | CMD_ARM_MODE_0 | CMD_ARM_MODE_1 | CMD_ARM_MODE_2 | CMD_ARM_MODE_3 => true
  | _ => false
  end.

Definition is_disarm (c : SatelCommand) : bool :=
  match c with CMD_DISARM => true | _ => false end.

Definition is_set_output (c : SatelCommand) : bool :=
  match c with CMD_OUTPUT_ON | CMD_OUTPUT_OFF => true | _ => false end.

(** The commands that assign to [self.partitions] or [self.outputs]. *)
Definition is_mutating (c : SatelCommand) : bool :=
  is_arm c || is_disarm c || is_set_output c.

(** The partition indices an ARM or DISARM frame addresses. *)
Definition addressed_partitions (lib : SatelLibrary) (m : SatelMessage) : list Z :=
  if is_arm (cmd m) || is_disarm (cmd m)
  then match list_set_bits m 8 4 with Some l => l | None => [] end
  else [].

(** The assignments a command makes to the emulator's attributes. *)
Definition effect (lib : SatelLibrary) (m : SatelMessage)
    (e : SatelIntegraEmulator) : SatelIntegraEmulator :=
  if is_arm (cmd m) then
    match list_set_bits m 8 4 with
    | Some l => Emulator (clients e) (zones e) (outputs e)
                         (set_all l AlarmState.ARMED_MODE0 (partitions e))
    | None => e
    end
  else if is_disarm (cmd m) then
    match list_set_bits m 8 4 with
    | Some l => Emulator (clients e) (zones e) (outputs e)
                         (set_all l AlarmState.DISARMED (partitions e))
    | None => e
    end
  else if is_set_output (cmd m) then
    match list_set_bits m 8 32 with
    | Some l => Emulator (clients e) (zones e)
                         (set_all l (is_CMD_OUTPUT_ON (cmd m)) (outputs e))
                         (partitions e)
    | None => e
    end
  else e.

(** The state snapshot a mutating command broadcasts, taken from the
    emulator [e]. *)
Definition snapshot (lib : SatelLibrary) (c : SatelCommand)
    (e : SatelIntegraEmulator) : SatelMessage :=
  if is_set_output c
  then Message_outputs OUTPUT_STATE (Py.keys_where (fun state => state) (outputs e))
  else Message_partitions ARMED_MODE0
         (Py.keys_where (fun st => AlarmState.eqb st AlarmState.ARMED_MODE0)
                        (partitions e)).

(** The bitmask a mutating command decodes: 4 bytes of partitions for
    ARM and DISARM, 32 bytes of outputs for OUTPUT_ON and OUTPUT_OFF. *)
Definition selection (lib : SatelLibrary) (m : SatelMessage) : option (list Z) :=
  if is_set_output (cmd m) then list_set_bits m 8 32 else list_set_bits m 8 4.

(** The world once a mutating command has made its assignments (and
    [set_output] has logged them), before anything is written. *)
Definition after_mutation (lib : SatelLibrary) (m : SatelMessage) (s : World) : World :=
  let s1 := with_self s (effect lib m (self s)) in
  if is_set_output (cmd m)
  then match list_set_bits m 8 32 with
       | Some l => with_logged s1 (logged s1 ++
                     [info_setting_outputs l (is_CMD_OUTPUT_ON (cmd m))])
       | None => s1
       end
  else s1.

(** The message a frame read from a connection decodes to, if the turn
    gets as far as dispatching it. *)
Definition received (lib : SatelLibrary) (r : Read) : option SatelMessage :=
  match r with
  | Failed => None
  | Data [] => None
  | Data data => decode_frame data
  end.

(** The state named by AlarmState for the command ARM_MODE_k. *)
Definition commanded_mode (c : SatelCommand) : option AlarmState.t :=
  match c with
  | CMD_ARM_MODE_0 => Some AlarmState.ARMED_MODE0
  | CMD_ARM_MODE_1 => Some AlarmState.ARMED_MODE1
  | CMD_ARM_MODE_2 => Some AlarmState.ARMED_MODE2
  | CMD_ARM_MODE_3 => Some AlarmState.ARMED_MODE3
  | _ => None
  end.

(** The frames on the wire addressed to [w], oldest first. *)
Definition frames_to (w : Writer) (l : list (Writer * list byte)) : list (list byte) :=
  map snd (filter (fun x => Nat.eqb (fst x) w) l).

(* ----------------------------------------------------------------- *)
(** *** Concrete frames and emulators used in the examples *)

(** The 8 bytes of access code that precede a bitmask. *)
Definition access_code : list byte := [x12; x34; xff; xff; xff; xff; xff; xff].

(** ARM_MODE_1 for partitions 1 and 3 (bitmask bytes [A0 00 00 00]). *)
Definition arm_mode_1_partitions_1_3 : SatelMessage :=
  Message CMD_ARM_MODE_1 (access_code ++ [xa0; x00; x00; x00]).

(** ARM_MODE_0 for partition 8 (bitmask bytes [01 00 00 00]). *)
Definition arm_mode_0_partition_8 : SatelMessage :=
  Message CMD_ARM_MODE_0 (access_code ++ [x01; x00; x00; x00]).

(** OUTPUT_ON for outputs 5 and 20, OUTPUT_OFF for output 5 (32 bytes
    of bitmask). *)
Definition output_on_5_20 : SatelMessage :=
  Message CMD_OUTPUT_ON (access_code ++ [x08; x00; x10; x00] ++ repeat x00 28).
Definition output_off_5 : SatelMessage :=
  Message CMD_OUTPUT_OFF (access_code ++ [x08; x00; x00; x00] ++ repeat x00 28).

Definition start_monitoring_frame : SatelMessage := Message CMD_START_MONITORING [].
Definition read_zone_temp_3 : SatelMessage := Message CMD_READ_ZONE_TEMP [x03].
Definition read_zone_temp_empty : SatelMessage := Message CMD_READ_ZONE_TEMP [].

(** A fresh emulator to which the writers [ws] are connected. *)
Definition connected (ws : list Writer) : SatelIntegraEmulator :=
  Emulator ws (zones init) (outputs init) (partitions init).

(** Client 1 connects and sends one frame: ARM_MODE_1 for partitions 1
    and 3 in the first session, ARM_MODE_0 for partition 8 in the
    second. *)
Definition in_range_session : list Event :=
  [Accept 1%nat;
   Readuntil 1%nat (Data (SpecLibrary.encode arm_mode_1_partitions_1_3))].

Definition out_of_range_session : list Event :=
  [Accept 1%nat;
   Readuntil 1%nat (Data (SpecLibrary.encode arm_mode_0_partition_8))].

(* ----------------------------------------------------------------- *)
(** *** Statements of the description that the code is checked against *)

(** "ARM_MODE_k sets each addressed partition to ARMED_MODE_k." *)
Definition arm_stores_commanded_mode (lib : SatelLibrary)
    (m : SatelMessage) (w : Writer) (s : World) : Prop :=
  forall st parts p,
    commanded_mode (cmd m) = Some st ->
    12 <= Z.of_nat (length (msg_data m)) ->
    list_set_bits m 8 4 = Some parts ->
    In p parts ->
    Py.get p (partitions (self (snd (process_command m w s)))) = Some st.

(** "The partition map only contains indices in [1,4]." *)
Definition partition_indices_in_range (e : SatelIntegraEmulator) : Prop :=
  Forall (fun k => 1 <= k <= 4) (Py.keys (partitions e)).

(** "The temperature byte is round((celsius + 55) * 2)." *)
Definition rounded_temperature_code (temp : Py.float) : option Z :=
  Py.round (Py.fmul (Py.fadd temp (Py.float_of_int 55)) (Py.float_of_int 2)).

(** A command whose handler raises on its payload, before any write:
    a bitmask that does not decode, a READ_ZONE_TEMP without a zone. *)
Definition payload_rejected (lib : SatelLibrary) (m : SatelMessage) : Prop :=
  if is_mutating (cmd m) then selection lib m = None
  else match cmd m with
       | CMD_READ_ZONE_TEMP => msg_data m = []
       | _ => False
       end.

(* ----------------------------------------------------------------- *)
(** *** Further frames and descriptions *)

(** DISARM for partitions 1 and 3, OUTPUT_OFF for outputs 5 and 20, a
    DEVICE_INFO request and a frame with a command code the emulator
    has no branch for. *)
Definition disarm_partitions_1_3 : SatelMessage :=
  Message CMD_DISARM (access_code ++ [xa0; x00; x00; x00]).
Definition output_off_5_20 : SatelMessage :=
  Message CMD_OUTPUT_OFF (access_code ++ [x08; x00; x10; x00] ++ repeat x00 28).
Definition device_info_frame : SatelMessage := Message DEVICE_INFO [x01; x01].
Definition unknown_frame : SatelMessage := Message (OTHER x7e) [].

(** The commands [process_command] has a branch for. *)
Definition is_handled (c : SatelCommand) : bool :=
  match c with
  | CMD_START_MONITORING | DEVICE_INFO
  | CMD_ARM_MODE_0 | CMD_ARM_MODE_1 | CMD_ARM_MODE_2 | CMD_ARM_MODE_3
  | CMD_DISARM | CMD_OUTPUT_ON | CMD_OUTPUT_OFF | CMD_READ_ZONE_TEMP => true
  | _ => false
  end.

(** [d] with the value [v] at every key of [ks] that [d] holds. *)
Definition overwrite (V : Type) (ks : list Z) (v : V) (d : Py.dict V) : Py.dict V :=
  map (fun kv => if existsb (Z.eqb (fst kv)) ks then (fst kv, v) else kv) d.

(** A computation is steady for a relation [R] on worlds when every run
    of it, returning or raising, takes a world to an [R]-related one. *)
Definition steady (R : World -> World -> Prop) (A : Type) (c : M A) : Prop :=
  forall s, R s (snd (c s)).

(** From [s] to [s'] the client set is the same and the wire has only
    grown, by frames written to [w] or to a registered client. *)
Definition delivery (w : Writer) (s s' : World) : Prop :=
  clients (self s') = clients (self s)
  /\ exists l, wire s' = wire s ++ l
               /\ Forall (fun x => fst x = w \/ In (fst x) (clients (self s))) l.

(** What the loop of [notify_state_change] logs for one client: the
    exception of its write, or else of its drain. *)
Definition notify_errors (s : World) (c : Writer) : list LogRecord :=
  if write_raises s c then [error_notifying_client (WriteError c)]
  else if drain_raises s c then [error_notifying_client (DrainError c)]
  else [].

(** A world in which the connections of [gone] are lost: [drain]
    raises for their writers; no write raises. *)
Definition disconnected (e : SatelIntegraEmulator) (gone : list Writer)
    (temp : Py.float) : World :=
  mkWorld e [] [] [] (fun _ => false) (fun w => mem w gone) (fun _ => temp) 0.

(** A computation keeps a component [f] of the world when no run of it
    changes [f], whether it returns or raises. *)
Definition keeps (X A : Type) (f : World -> X) (c : M A) : Prop :=
  forall s, f (snd (c s)) = f s.

(* ================================================================= *)
(** ** Dictionaries *)

Section DictFacts.
Variable V : Type.
Implicit Types (d : Py.dict V) (k : Z) (v : V).

Lemma get_set_same k v d : Py.get k (Py.set k v d) = Some v.
Proof.
  induction d as [|[k' v'] r IH]; simpl.
  - now rewrite Z.eqb_refl.
  - destruct (k =? k') eqn:E; simpl.
    + now rewrite Z.eqb_refl.
    + now rewrite E.
Qed.

Lemma get_set_other k k0 v d : k <> k0 -> Py.get k (Py.set k0 v d) = Py.get k d.
Proof.
  intros Hne. apply Z.eqb_neq in Hne.
  induction d as [|[k' v'] r IH]; simpl.
  - now rewrite Hne.
  - destruct (k0 =? k') eqn:E0; simpl.
    + apply Z.eqb_eq in E0. subst k'. now rewrite Hne.
    + now rewrite IH.
Qed.

Lemma get_set k k0 v d :
  Py.get k (Py.set k0 v d) = if k =? k0 then Some v else Py.get k d.
Proof.
  destruct (Z.eqb_spec k k0) as [->|Hne].
  - apply get_set_same.
  - now apply get_set_other.
Qed.

Lemma get_set_all ks k v d :
  Py.get k (set_all ks v d)
  = if existsb (Z.eqb k) ks then Some v else Py.get k d.
Proof.
  unfold set_all. revert d.
  induction ks as [|k0 r IH]; intros d; simpl; [reflexivity|].
  rewrite IH, get_set.
  destruct (k =? k0); simpl; now destruct (existsb (Z.eqb k) r).
Qed.

Lemma get_set_all_in ks k v d : In k ks -> Py.get k (set_all ks v d) = Some v.
Proof.
  intros H. rewrite get_set_all.
  assert (E : existsb (Z.eqb k) ks = true).
  { apply existsb_exists. exists k. split; [exact H | apply Z.eqb_refl]. }
  now rewrite E.
Qed.

Lemma get_set_all_out ks k v d : ~ In k ks -> Py.get k (set_all ks v d) = Py.get k d.
Proof.
  intros H. rewrite get_set_all.
  destruct (existsb (Z.eqb k) ks) eqn:E; [|reflexivity].
  apply existsb_exists in E. destruct E as [x [Hx Ex]].
  apply Z.eqb_eq in Ex. subst x. contradiction.
Qed.

Lemma keys_set k k0 v d :
  In k (Py.keys (Py.set k0 v d)) <-> k = k0 \/ In k (Py.keys d).
Proof.
  unfold Py.keys. induction d as [|[k' v'] r IH]; simpl.
  - intuition.
  - destruct (k0 =? k') eqn:E; simpl.
    + apply Z.eqb_eq in E. subst k'. intuition.
    + rewrite IH. intuition.
Qed.

Lemma keys_set_present k v d :
  In k (Py.keys d) -> Py.keys (Py.set k v d) = Py.keys d.
Proof.
  unfold Py.keys. induction d as [|[k' v'] r IH]; simpl; [tauto|].
  intros H. destruct (k =? k') eqn:E; simpl.
  - apply Z.eqb_eq in E. now subst.
  - f_equal. apply IH. destruct H as [H|H]; [|exact H].
    subst k'. now rewrite Z.eqb_refl in E.
Qed.

Lemma keys_set_all ks k v d :
  In k (Py.keys (set_all ks v d)) <-> In k ks \/ In k (Py.keys d).
Proof.
  unfold set_all. revert d.
  induction ks as [|k0 r IH]; intros d; simpl; [tauto|].
  rewrite IH, keys_set. intuition.
Qed.

Lemma keys_set_all_present ks v d :
  (forall k, In k ks -> In k (Py.keys d)) ->
  Py.keys (set_all ks v d) = Py.keys d.
Proof.
  unfold set_all. revert d.
  induction ks as [|k0 r IH]; intros d H; simpl; [reflexivity|].
  rewrite IH.
  - apply keys_set_present. apply H. now left.
  - intros k Hk. apply keys_set. right. apply H. now right.
Qed.

End DictFacts.

(* ================================================================= *)
(** ** Running the monad *)

Lemma with_self_self s : with_self s (self s) = s.
Proof. now destruct s. Qed.

Lemma run_bind A B (c : M A) (k : A -> M B) s a s1 :
  c s = (Return a, s1) -> bind c k s = k a s1.
Proof. intros H. unfold bind. now rewrite H. Qed.

Lemma run_bind_raise A B (c : M A) (k : A -> M B) s e s1 :
  c s = (Raise e, s1) -> bind c k s = (Raise e, s1).
Proof. intros H. unfold bind. now rewrite H. Qed.

Section Keeps.
Variables (X : Type) (f : World -> X).

Lemma keeps_ret A (a : A) : keeps f (ret a).
Proof. now intros s. Qed.

Lemma keeps_raise A e : keeps f (@raise A e).
Proof. now intros s. Qed.

Lemma keeps_or_raise A (o : option A) e : keeps f (or_raise o e).
Proof. destruct o; [apply keeps_ret | apply keeps_raise]. Qed.

Lemma keeps_get_self : keeps f get_self.
Proof. now intros s. Qed.

Lemma keeps_bind A B (c : M A) (k : A -> M B) :
  keeps f c -> (forall a, keeps f (k a)) -> keeps f (bind c k).
Proof.
  intros Hc Hk s. unfold bind. specialize (Hc s).
  destruct (c s) as [[a|e] s1]; simpl in *.
  - now rewrite Hk.
  - exact Hc.
Qed.

Lemma keeps_try_except A (c : M A) h :
  keeps f c -> (forall e, keeps f (h e)) -> keeps f (try_except c h).
Proof.
  intros Hc Hh s. unfold try_except. specialize (Hc s).
  destruct (c s) as [[a|e] s1]; simpl in *.
  - exact Hc.
  - now rewrite Hh.
Qed.

Lemma keeps_for_each A (l : list A) body :
  (forall x, keeps f (body x)) -> keeps f (for_each l body).
Proof.
  intros Hb. induction l as [|x r IH]; simpl.
  - apply keeps_ret.
  - apply keeps_bind; [apply Hb | intros _; exact IH].
Qed.

Lemma keeps_if A (b : bool) (c1 c2 : M A) :
  keeps f c1 -> keeps f c2 -> keeps f (if b then c1 else c2).
Proof. now destruct b. Qed.

End Keeps.

Create HintDb keeps discriminated.
#[export] Hint Resolve keeps_ret keeps_raise keeps_or_raise keeps_get_self
  keeps_bind keeps_try_except keeps_for_each keeps_if : keeps.

(** What each primitive leaves alone. *)
Ltac keeps_prim :=
  intros s; cbv [logger writer_write writer_drain writer_close
                 random_uniform_21_24 set_self];
  simpl;
  try match goal with |- context [if ?b then _ else _] => destruct b end;
  reflexivity.

Lemma logger_self r : keeps self (logger r). Proof. keeps_prim. Qed.
Lemma logger_wire r : keeps wire (logger r). Proof. keeps_prim. Qed.
Lemma logger_closed r : keeps closed (logger r). Proof. keeps_prim. Qed.
Lemma logger_write_raises r : keeps write_raises (logger r). Proof. keeps_prim. Qed.
Lemma write_self w fr : keeps self (writer_write w fr). Proof. keeps_prim. Qed.
Lemma write_closed w fr : keeps closed (writer_write w fr). Proof. keeps_prim. Qed.
Lemma write_write_raises w fr : keeps write_raises (writer_write w fr). Proof. keeps_prim. Qed.
Lemma drain_self w : keeps self (writer_drain w). Proof. keeps_prim. Qed.
Lemma drain_wire w : keeps wire (writer_drain w). Proof. keeps_prim. Qed.
Lemma drain_closed w : keeps closed (writer_drain w). Proof. keeps_prim. Qed.
Lemma drain_write_raises w : keeps write_raises (writer_drain w). Proof. keeps_prim. Qed.
Lemma close_self w : keeps self (writer_close w). Proof. keeps_prim. Qed.
Lemma close_wire w : keeps wire (writer_close w). Proof. keeps_prim. Qed.
Lemma close_write_raises w : keeps write_raises (writer_close w). Proof. keeps_prim. Qed.
Lemma draw_self : keeps self random_uniform_21_24. Proof. keeps_prim. Qed.
Lemma draw_wire : keeps wire random_uniform_21_24. Proof. keeps_prim. Qed.
Lemma draw_closed : keeps closed random_uniform_21_24. Proof. keeps_prim. Qed.
Lemma draw_write_raises : keeps write_raises random_uniform_21_24. Proof. keeps_prim. Qed.
Lemma set_self_wire e : keeps wire (set_self e). Proof. keeps_prim. Qed.
Lemma set_self_closed e : keeps closed (set_self e). Proof. keeps_prim. Qed.
Lemma set_self_write_raises e : keeps write_raises (set_self e). Proof. keeps_prim. Qed.

#[export] Hint Resolve logger_self logger_wire logger_closed logger_write_raises
  write_self write_closed write_write_raises
  drain_self drain_wire drain_closed drain_write_raises
  close_self close_wire close_write_raises
  draw_self draw_wire draw_closed draw_write_raises
  set_self_wire set_self_closed set_self_write_raises : keeps.

Ltac keeps_auto :=
  repeat first
    [ progress auto with keeps
    | apply keeps_bind; [|intros ?]
    | apply keeps_try_except; [|intros ?]
    | apply keeps_for_each; intros ?
    | apply keeps_or_raise
    | match goal with
      | |- keeps _ (match ?x with _ => _ end) => destruct x
      end ].

Section Handlers.
Context {lib : SatelLibrary}.

Lemma send_response_self m c : keeps self (send_response m c).
Proof. unfold send_response. keeps_auto. Qed.

Lemma send_response_closed m c : keeps closed (send_response m c).
Proof. unfold send_response. keeps_auto. Qed.

Lemma send_response_write_raises m c : keeps write_raises (send_response m c).
Proof. unfold send_response. keeps_auto. Qed.

Lemma setitem_partitions_wire k v : keeps wire (partitions_setitem k v).
Proof. unfold partitions_setitem. keeps_auto. Qed.
Lemma setitem_partitions_closed k v : keeps closed (partitions_setitem k v).
Proof. unfold partitions_setitem. keeps_auto. Qed.
Lemma setitem_partitions_write_raises k v : keeps write_raises (partitions_setitem k v).
Proof. unfold partitions_setitem. keeps_auto. Qed.
Lemma setitem_outputs_wire k v : keeps wire (outputs_setitem k v).
Proof. unfold outputs_setitem. keeps_auto. Qed.
Lemma setitem_outputs_closed k v : keeps closed (outputs_setitem k v).
Proof. unfold outputs_setitem. keeps_auto. Qed.
Lemma setitem_outputs_write_raises k v : keeps write_raises (outputs_setitem k v).
Proof. unfold outputs_setitem. keeps_auto. Qed.

End Handlers.

(* ================================================================= *)
(** ** The loops in closed form *)

Section Loops.
Context {lib : SatelLibrary}.

Lemma for_each_partitions ks v s :
  for_each ks (fun k => partitions_setitem k v) s
  = (Return tt,
     with_self s (Emulator (clients (self s)) (zones (self s)) (outputs (self s))
                           (set_all ks v (partitions (self s))))).
Proof.
  revert s. induction ks as [|k r IH]; intros s; simpl.
  - destruct s as [[c z o p] ? ? ? ? ? ? ?]. reflexivity.
  - unfold bind at 1. unfold partitions_setitem at 1, bind, get_self, set_self.
    rewrite IH. reflexivity.
Qed.

Lemma for_each_outputs ks v s :
  for_each ks (fun k => outputs_setitem k v) s
  = (Return tt,
     with_self s (Emulator (clients (self s)) (zones (self s))
                           (set_all ks v (outputs (self s)))
                           (partitions (self s)))).
Proof.
  revert s. induction ks as [|k r IH]; intros s; simpl.
  - destruct s as [[c z o p] ? ? ? ? ? ? ?]. reflexivity.
  - unfold bind at 1. unfold outputs_setitem at 1, bind, get_self, set_self.
    rewrite IH. reflexivity.
Qed.

Lemma send_loop message targets s :
  for_each targets
    (fun writer => writer_write writer (encode_frame message) ;;
                   logger (debug_sent writer message)) s
  = (match first_raising (write_raises s) targets with
     | None => Return tt
     | Some w => Raise (WriteError w)
     end,
     after_send lib message targets s).
Proof.
  unfold after_send. revert s.
  induction targets as [|w r IH]; intros s; simpl.
  - destruct s. unfold with_logged, with_wire; simpl. now rewrite !app_nil_r.
  - unfold bind at 1. unfold bind at 1. unfold writer_write at 1.
    destruct (write_raises s w) eqn:E.
    + destruct s. unfold with_logged, with_wire; simpl. now rewrite !app_nil_r.
    + unfold logger at 1. rewrite IH. simpl.
      unfold with_logged, with_wire; simpl.
      now rewrite <- !app_assoc.
Qed.

Lemma send_response_run message client s :
  send_response message client s
  = let targets := match client with
                   | Some c => [c]
                   | None => clients (self s)
                   end in
    (match first_raising (write_raises s) targets with
     | None => Return tt
     | Some w => Raise (WriteError w)
     end,
     after_send lib message targets s).
Proof.
  unfold send_response, bind at 1, get_self. apply send_loop.
Qed.

Lemma first_raising_none raises targets :
  first_raising raises targets = None -> reached raises targets = targets.
Proof.
  induction targets as [|w r IH]; simpl; [reflexivity|].
  destruct (raises w); [discriminate|]. intros H. now rewrite IH.
Qed.

Lemma first_raising_some raises targets w :
  first_raising raises targets = Some w ->
  exists after, targets = reached raises targets ++ w :: after /\ raises w = true.
Proof.
  induction targets as [|x r IH]; simpl; [discriminate|].
  destruct (raises x) eqn:E.
  - intros [= ->]. exists r. now split.
  - intros H. destruct (IH H) as [after [Heq Hw]].
    exists after. split; [simpl; now f_equal | exact Hw].
Qed.

Lemma first_raising_calm targets :
  first_raising (fun _ => false) targets = None.
Proof. induction targets; simpl; auto. Qed.

Lemma no_raising_client raises (targets : list Writer) :
  (forall c, In c targets -> raises c = false) ->
  first_raising raises targets = None /\ reached raises targets = targets.
Proof.
  intros H. induction targets as [|c r IH]; simpl; [now split|].
  rewrite (H c (or_introl eq_refl)).
  destruct IH as [I1 I2]; [intros x Hx; apply H; now right|].
  now rewrite I1, I2.
Qed.

End Loops.

(* ================================================================= *)
(** ** What the handlers keep, what they change *)

Section HandlerFacts.
Context {lib : SatelLibrary}.

Ltac unfold_handlers :=
  unfold process_command, dispatch, start_monitoring, device_info, arm, disarm,
    set_output, read_temperature, broadcast_outputs, broadcast_partitions,
    send_response, partitions_setitem, outputs_setitem.

Lemma broadcast_outputs_self : keeps self broadcast_outputs.
Proof. unfold_handlers. keeps_auto. Qed.

Lemma broadcast_partitions_self st : keeps self (broadcast_partitions st).
Proof. unfold_handlers. keeps_auto. Qed.

Lemma process_command_closed m w : keeps closed (process_command m w).
Proof. destruct m as [c d]. unfold_handlers. simpl. keeps_auto. Qed.

Lemma process_command_write_raises m w : keeps write_raises (process_command m w).
Proof. destruct m as [c d]. unfold_handlers. simpl. keeps_auto. Qed.

Lemma dispatch_write_raises m w : keeps write_raises (dispatch m w).
Proof. destruct m as [c d]. unfold_handlers. simpl. keeps_auto. Qed.

(** A command never raises out of [process_command]. *)
Lemma process_command_returns m w s : fst (process_command m w s) = Return tt.
Proof.
  unfold process_command, try_except.
  destruct (dispatch m w s) as [[[]|e] s1]; reflexivity.
Qed.

Lemma process_command_wire m w s :
  wire (snd (process_command m w s)) = wire (snd (dispatch m w s)).
Proof.
  unfold process_command, try_except.
  destruct (dispatch m w s) as [[[]|e] s1]; reflexivity.
Qed.

Lemma process_command_self_dispatch m w s :
  self (snd (process_command m w s)) = self (snd (dispatch m w s)).
Proof.
  unfold process_command, try_except.
  destruct (dispatch m w s) as [[[]|e] s1]; reflexivity.
Qed.

(** The run of a mutating command whose bitmask decodes. *)
Lemma mutating_run m w s l :
  is_mutating (cmd m) = true ->
  selection lib m = Some l ->
  dispatch m w s
  = let t := clients (self s) in
    let s1 := after_send lib RESPONSE_OK t (after_mutation lib m s) in
    match first_raising (write_raises s) t with
    | Some bad => (Raise (WriteError bad), s1)
    | None => (Return tt, after_send lib (snapshot lib (cmd m) (effect lib m (self s))) t s1)
    end.
Proof.
  destruct m as [c d]. unfold selection, after_mutation, effect, snapshot.
  destruct c; simpl; try discriminate; intros _ Hl;
    unfold dispatch, arm, disarm, set_output; simpl;
    rewrite Hl; simpl or_raise;
    (erewrite run_bind by reflexivity);
    (erewrite run_bind by (first [apply for_each_partitions | apply for_each_outputs]));
    try (erewrite run_bind by reflexivity);
    unfold bind at 1; rewrite send_response_run; simpl;
    destruct (first_raising (write_raises s) (clients (self s))) eqn:E;
    try reflexivity;
    unfold broadcast_partitions, broadcast_outputs; simpl;
    (erewrite run_bind by reflexivity);
    try (erewrite run_bind by reflexivity);
    rewrite send_response_run; simpl; rewrite E; reflexivity.
Qed.

(** The attributes after any command. *)
Lemma dispatch_self m w s : self (snd (dispatch m w s)) = effect lib m (self s).
Proof.
  destruct (is_mutating (cmd m)) eqn:Hm.
  - destruct (selection lib m) as [l|] eqn:Hl.
    + erewrite mutating_run by eassumption. simpl.
      unfold after_mutation.
      destruct (first_raising _ _); simpl;
        destruct (is_set_output (cmd m)); simpl;
        try destruct (list_set_bits m 8 32); reflexivity.
    + destruct m as [c d]. unfold selection, effect in *.
      destruct c; simpl in *; try discriminate;
        unfold dispatch, arm, disarm, set_output; simpl; rewrite Hl; reflexivity.
  - destruct m as [c d]. unfold effect.
    destruct c; simpl in *; try discriminate.
    all: try reflexivity.
    all: match goal with
         | |- self (snd (?h ?s)) = _ =>
             change (self (snd (h s))) with ((fun x => self x) (snd (h s)))
         end.
    all: unfold dispatch; simpl.
    all: match goal with |- _ (snd (?c ?s)) = _ => 
           let H := fresh in assert (H : keeps self c); [| apply H] end.
    all: unfold_handlers; keeps_auto.
Qed.

Lemma process_command_self m w s :
  self (snd (process_command m w s)) = effect lib m (self s).
Proof. rewrite process_command_self_dispatch. apply dispatch_self. Qed.

Lemma effect_clients m e : clients (effect lib m e) = clients e.
Proof.
  unfold effect.
  destruct (is_arm (cmd m)); [destruct (list_set_bits m 8 4); reflexivity|].
  destruct (is_disarm (cmd m)); [destruct (list_set_bits m 8 4); reflexivity|].
  destruct (is_set_output (cmd m)); [destruct (list_set_bits m 8 32); reflexivity|].
  reflexivity.
Qed.

(** A mutating command whose bitmask decodes returns when no write to
    a client raises. *)
Lemma mutating_returns m w s l :
  is_mutating (cmd m) = true ->
  selection lib m = Some l ->
  (forall c, In c (clients (self s)) -> write_raises s c = false) ->
  fst (dispatch m w s) = Return tt.
Proof.
  intros Hm Hl Hq. erewrite mutating_run by eassumption. simpl.
  destruct (no_raising_client (write_raises s) (clients (self s)) Hq) as [E _].
  now rewrite E.
Qed.

Lemma effect_zones m e : zones (effect lib m e) = zones e.
Proof.
  unfold effect.
  destruct (is_arm (cmd m)); [destruct (list_set_bits m 8 4); reflexivity|].
  destruct (is_disarm (cmd m)); [destruct (list_set_bits m 8 4); reflexivity|].
  destruct (is_set_output (cmd m)); [destruct (list_set_bits m 8 32); reflexivity|].
  reflexivity.
Qed.

End HandlerFacts.

(* ================================================================= *)
(** ** The receive loop, one read at a time *)

Section LoopFacts.
Context {lib : SatelLibrary}.

(** The [finally] block of a registered writer. *)
Lemma handle_client_finally_run w s :
  mem w (clients (self s)) = true ->
  handle_client_finally w s
  = (Return tt,
     with_logged
       (with_closed
          (with_self s (Emulator (filter (fun c => negb (Nat.eqb w c)) (clients (self s)))
                                 (zones (self s)) (outputs (self s))
                                 (partitions (self s))))
          (closed s ++ [w]))
       (logged s ++ [info_connection_closed w])).
Proof.
  intros H. unfold handle_client_finally, clients_remove, bind, get_self.
  rewrite H. reflexivity.
Qed.

(** A read that gives no message ends the loop. *)
Lemma handle_client_step_stop w r s :
  received lib r = None ->
  handle_client_step w r s
  = (handle_client_finally w ;; ret false) s.
Proof.
  intros H. unfold handle_client_step, handle_client_turn, received in *.
  destruct r as [[|b d]|]; try reflexivity.
  unfold bind at 1, try_except, bind at 1. rewrite H. reflexivity.
Qed.

(** A read that gives a message dispatches it and goes on. *)
Lemma handle_client_step_go w r m s :
  received lib r = Some m ->
  handle_client_step w r s
  = (Return true,
     snd (process_command m w (snd (logger (debug_received w m) s)))).
Proof.
  intros H. unfold handle_client_step, handle_client_turn, received in *.
  destruct r as [[|b d]|]; try discriminate.
  unfold bind at 1, try_except, bind at 1. rewrite H. simpl or_raise.
  unfold ret at 1. unfold bind at 1. unfold logger at 1.
  unfold bind at 1.
  pose proof (process_command_returns m w
               (with_logged s (logged s ++ [debug_received w m]))) as R.
  unfold logger. simpl snd.
  destruct (process_command m w _) as [[[]|e] s1]; simpl in R; try discriminate.
  reflexivity.
Qed.

(** The device attributes after one read: those of the dispatched
    command, whatever happens to the connection. *)
Lemma handle_client_step_device w r s :
  let e' := match received lib r with
            | Some m => effect lib m (self s)
            | None => self s
            end in
  let s' := snd (handle_client_step w r s) in
  zones (self s') = zones e' /\ outputs (self s') = outputs e'
  /\ partitions (self s') = partitions e'.
Proof.
  destruct (received lib r) as [m|] eqn:H; simpl.
  - rewrite (handle_client_step_go w r s H). simpl.
    rewrite process_command_self. simpl. auto.
  - rewrite (handle_client_step_stop w r s H).
    unfold bind, handle_client_finally, clients_remove, bind, get_self.
    destruct (mem w (clients (self s))); simpl; auto.
Qed.

Lemma handle_client_enter_device w s :
  let s' := snd (handle_client_enter w s) in
  zones (self s') = zones (self s) /\ outputs (self s') = outputs (self s)
  /\ partitions (self s') = partitions (self s).
Proof. simpl. auto. Qed.

End LoopFacts.

(* ================================================================= *)
(** ** Arming *)

Section Arming.
Context {lib : SatelLibrary}.

(** C1 (amended): for every ARM_MODE_k command (k = 0..3) whose
    partition bitmask, read at byte offset 8 over 4 bytes, decodes,
    the handler sets each addressed partition to ARMED_MODE0, whatever
    k is. *)
Theorem arm_stores_mode0 m w s parts p :
  is_arm (cmd m) = true ->
  list_set_bits m 8 4 = Some parts ->
  In p parts ->
  Py.get p (partitions (self (snd (process_command m w s))))
  = Some AlarmState.ARMED_MODE0.
Proof.
  intros Ha Hl Hp. rewrite process_command_self. unfold effect.
  rewrite Ha, Hl. simpl. now apply get_set_all_in.
Qed.

End Arming.

Lemma arm_stores_mode0_witness :
  is_arm (cmd arm_mode_1_partitions_1_3) = true
  /\ list_set_bits (SatelLibrary := SpecLibrary.library)
       arm_mode_1_partitions_1_3 8 4 = Some [1; 3]
  /\ In 3 [1; 3]
  /\ Py.get 3 (partitions (self (snd (process_command (lib := SpecLibrary.library)
                 arm_mode_1_partitions_1_3 1%nat
                 (calm (connected [1%nat]) temp_21)))))
     = Some AlarmState.ARMED_MODE0.
Proof.
  assert (H3 : In 3 [1; 3]) by (right; left; reflexivity).
  split; [reflexivity|]. split; [reflexivity|]. split; [exact H3|].
  apply (@arm_stores_mode0 SpecLibrary.library
           arm_mode_1_partitions_1_3 1%nat (calm (connected [1%nat]) temp_21)
           [1; 3] 3 eq_refl eq_refl H3).
Defined.

(** C1, as stated, fails: ARM_MODE_1 for partitions 1 and 3, sent with
    8 bytes of code and 4 bytes of bitmask, leaves partition 1 in
    ARMED_MODE0, not in ARMED_MODE1. *)
Lemma arm_mode_1_is_stored_as_mode_0 :
  ~ arm_stores_commanded_mode SpecLibrary.library arm_mode_1_partitions_1_3
      1%nat (calm (connected [1%nat]) temp_21).
Proof.
  intros H.
  assert (Hlen : 12 <= Z.of_nat (length (msg_data arm_mode_1_partitions_1_3)))
    by (vm_compute; discriminate).
  specialize (H AlarmState.ARMED_MODE1 [1; 3] 1 eq_refl Hlen eq_refl
                (or_introl eq_refl)).
  vm_compute in H. discriminate H.
Qed.

(* ================================================================= *)
(** ** Mutating commands: acknowledgement and state broadcast *)

Section Mutating.
Context {lib : SatelLibrary}.

(** The frames a mutating command puts on the wire when its handler
    returns: OK to every client, then the snapshot to every client. *)
Lemma mutating_success_wire m w s :
  is_mutating (cmd m) = true ->
  fst (dispatch m w s) = Return tt ->
  wire (snd (process_command m w s))
  = wire s
    ++ map (fun c => (c, encode_frame RESPONSE_OK)) (clients (self s))
    ++ map (fun c => (c, encode_frame (snapshot lib (cmd m) (effect lib m (self s)))))
           (clients (self s)).
Proof.
  intros Hm Hok. rewrite process_command_wire.
  destruct (selection lib m) as [l|] eqn:Hl.
  - revert Hok. erewrite mutating_run by eassumption. simpl.
    destruct (first_raising (write_raises s) (clients (self s))) eqn:E;
      [discriminate|]. intros _.
    unfold after_send, after_mutation. simpl.
    destruct (is_set_output (cmd m)); simpl;
      try destruct (list_set_bits m 8 32); simpl;
      rewrite ?effect_clients, (first_raising_none _ _ E);
      now rewrite <- app_assoc.
  - exfalso. destruct m as [c d]. unfold selection in Hl.
    destruct c; simpl in *; try discriminate;
      unfold dispatch, arm, disarm, set_output in Hok; simpl in Hok;
      rewrite Hl in Hok; discriminate.
Qed.

(** C2 (what the code does): when a mutating command is handled
    without an exception, the OK result frame is written to every
    registered client, one after the other, and not to the sender
    alone; the state snapshot follows. *)
Theorem ok_result_reaches_every_client m w s :
  is_mutating (cmd m) = true ->
  fst (dispatch m w s) = Return tt ->
  exists rest,
    wire (snd (process_command m w s))
    = wire s
      ++ map (fun c => (c, encode_frame RESPONSE_OK)) (clients (self s))
      ++ rest.
Proof.
  intros Hm Hok. eexists. apply (mutating_success_wire m w s Hm Hok).
Qed.

(** C8: a mutating command that is handled without an exception has
    made all its assignments when the broadcast frame is built: the
    frame broadcast last is the snapshot of the emulator as the command
    leaves it. *)
Theorem broadcast_reflects_post_state m w s :
  is_mutating (cmd m) = true ->
  fst (dispatch m w s) = Return tt ->
  let s' := snd (process_command m w s) in
  self s' = effect lib m (self s)
  /\ wire s'
     = (wire s ++ map (fun c => (c, encode_frame RESPONSE_OK)) (clients (self s')))
       ++ map (fun c => (c, encode_frame (snapshot lib (cmd m) (self s'))))
              (clients (self s')).
Proof.
  intros Hm Hok s'. subst s'. split; [apply process_command_self|].
  rewrite (mutating_success_wire m w s Hm Hok), process_command_self,
    effect_clients.
  now rewrite app_assoc.
Qed.

(** C9: an OUTPUT_ON or OUTPUT_OFF command whose bitmask selects
    exactly outputs 5 and 20 sets these two to on (resp. off) and leaves
    every other output, the zones and the partitions as they were. *)
Theorem output_isolation m w s outs :
  is_set_output (cmd m) = true ->
  list_set_bits m 8 32 = Some outs ->
  (forall i, In i outs <-> i = 5 \/ i = 20) ->
  let e := self s in
  let e' := self (snd (process_command m w s)) in
  (forall i, i <> 5 -> i <> 20 -> Py.get i (outputs e') = Py.get i (outputs e))
  /\ Py.get 5 (outputs e') = Some (is_CMD_OUTPUT_ON (cmd m))
  /\ Py.get 20 (outputs e') = Some (is_CMD_OUTPUT_ON (cmd m))
  /\ zones e' = zones e
  /\ partitions e' = partitions e.
Proof.
  intros Hc Hl Hsel e e'. subst e e'. rewrite process_command_self.
  unfold effect. rewrite Hc, Hl.
  assert (Ha : is_arm (cmd m) = false) by (destruct (cmd m); simpl in *; congruence).
  assert (Hd : is_disarm (cmd m) = false) by (destruct (cmd m); simpl in *; congruence).
  rewrite Ha, Hd. simpl. repeat split.
  - intros i H5 H20. apply get_set_all_out. rewrite Hsel. tauto.
  - apply get_set_all_in. apply Hsel. now left.
  - apply get_set_all_in. apply Hsel. now right.
Qed.

End Mutating.

(** Two clients are connected and client 1 switches outputs 5 and 20 on:
    both get the OK frame, then both get the output state. *)
Lemma ok_result_reaches_every_client_witness :
  is_mutating (cmd output_on_5_20) = true
  /\ fst (dispatch (lib := SpecLibrary.library) output_on_5_20 1%nat
            (calm (connected [1%nat; 2%nat]) temp_21)) = Return tt
  /\ exists rest,
       wire (snd (process_command (lib := SpecLibrary.library) output_on_5_20 1%nat
                    (calm (connected [1%nat; 2%nat]) temp_21)))
       = wire (calm (connected [1%nat; 2%nat]) temp_21)
         ++ map (fun c => (c, encode_frame (SatelLibrary := SpecLibrary.library)
                                RESPONSE_OK))
                (clients (self (calm (connected [1%nat; 2%nat]) temp_21)))
         ++ rest.
Proof.
  split; [reflexivity|]. split; [reflexivity|].
  apply (@ok_result_reaches_every_client SpecLibrary.library output_on_5_20 1%nat
           (calm (connected [1%nat; 2%nat]) temp_21) eq_refl eq_refl).
Defined.

(** Outputs 5 and 20 are on; client 1 switches output 5 off: the
    broadcast lists output 20 only. *)
Lemma broadcast_reflects_post_state_witness :
  let lib := SpecLibrary.library in
  let s := snd (process_command output_on_5_20 1%nat
                  (calm (connected [1%nat; 2%nat]) temp_21)) in
  let s' := snd (process_command output_off_5 1%nat s) in
  is_mutating (cmd output_off_5) = true
  /\ fst (dispatch output_off_5 1%nat s) = Return tt
  /\ snapshot lib (cmd output_off_5) (self s') = Message_outputs OUTPUT_STATE [20]
  /\ self s' = effect lib output_off_5 (self s)
  /\ wire s'
     = (wire s ++ map (fun c => (c, encode_frame RESPONSE_OK)) (clients (self s')))
       ++ map (fun c => (c, encode_frame (snapshot lib (cmd output_off_5) (self s'))))
              (clients (self s')).
Proof.
  intros lib s s'.
  split; [reflexivity|]. split; [reflexivity|]. split; [reflexivity|].
  apply (@broadcast_reflects_post_state lib output_off_5 1%nat s eq_refl eq_refl).
Defined.

Lemma output_isolation_witness :
  let lib := SpecLibrary.library in
  let s := calm (connected [1%nat]) temp_21 in
  let e := self s in
  let e' := self (snd (process_command output_on_5_20 1%nat s)) in
  is_set_output (cmd output_on_5_20) = true
  /\ list_set_bits output_on_5_20 8 32 = Some [5; 20]
  /\ (forall i, In i [5; 20] <-> i = 5 \/ i = 20)
  /\ (forall i, i <> 5 -> i <> 20 -> Py.get i (outputs e') = Py.get i (outputs e))
  /\ Py.get 5 (outputs e') = Some (is_CMD_OUTPUT_ON (cmd output_on_5_20))
  /\ Py.get 20 (outputs e') = Some (is_CMD_OUTPUT_ON (cmd output_on_5_20))
  /\ zones e' = zones e
  /\ partitions e' = partitions e.
Proof.
  intros lib s e e'.
  assert (Hsel : forall i, In i [5; 20] <-> i = 5 \/ i = 20).
  { intros i. simpl. intuition. }
  split; [reflexivity|]. split; [reflexivity|]. split; [exact Hsel|].
  apply (@output_isolation lib output_on_5_20 1%nat s [5; 20]
           eq_refl eq_refl Hsel).
Defined.

(* ================================================================= *)
(** ** The range of the partition indices *)

Section PartitionRange.
Context {lib : SatelLibrary}.

Lemma effect_partition_keys m e :
  Py.keys (partitions e) = [1; 2; 3; 4] ->
  Forall (fun k => 1 <= k <= 4) (addressed_partitions lib m) ->
  Py.keys (partitions (effect lib m e)) = [1; 2; 3; 4].
Proof.
  intros Hk Ha. unfold effect, addressed_partitions in *.
  assert (Hin : forall l, Forall (fun k => 1 <= k <= 4) l ->
                forall k, In k l -> In k (Py.keys (partitions e))).
  { intros l Hl k Hkl. rewrite Hk. rewrite Forall_forall in Hl.
    specialize (Hl k Hkl). simpl. lia. }
  destruct (is_arm (cmd m)); simpl in *.
  { destruct (list_set_bits m 8 4); simpl; [|exact Hk].
    rewrite keys_set_all_present; [exact Hk | now apply Hin]. }
  destruct (is_disarm (cmd m)); simpl in *.
  { destruct (list_set_bits m 8 4); simpl; [|exact Hk].
    rewrite keys_set_all_present; [exact Hk | now apply Hin]. }
  destruct (is_set_output (cmd m)); [destruct (list_set_bits m 8 32)|]; exact Hk.
Qed.

Lemma serve_partition_keys s ev :
  Py.keys (partitions (self s)) = [1; 2; 3; 4] ->
  (forall w r m, ev = Readuntil w r -> received lib r = Some m ->
                 Forall (fun k => 1 <= k <= 4) (addressed_partitions lib m)) ->
  Py.keys (partitions (self (serve s ev))) = [1; 2; 3; 4].
Proof.
  intros Hk Hev. destruct ev as [w|w r]; simpl.
  - exact Hk.
  - destruct (mem w (clients (self s))); [|exact Hk].
    destruct (handle_client_step_device w r s) as (_ & _ & Hp). rewrite Hp.
    destruct (received lib r) as [m|] eqn:Hr; [|exact Hk].
    apply effect_partition_keys; [exact Hk|].
    now apply (Hev w r m).
Qed.

(** An ARM or DISARM frame is applied to every index its bitmask
    addresses: the handler returns when no write raises, and the index
    is an index of the partition map afterwards, with the state the
    handler assigns. *)
Lemma addressed_partition_is_assigned m w s parts k :
  In (cmd m) [CMD_ARM_MODE_0; CMD_ARM_MODE_1; CMD_ARM_MODE_2; CMD_ARM_MODE_3;
              CMD_DISARM] ->
  list_set_bits m 8 4 = Some parts ->
  In k parts ->
  let s' := snd (process_command m w s) in
  ((forall c, In c (clients (self s)) -> write_raises s c = false) ->
   fst (dispatch m w s) = Return tt)
  /\ In k (Py.keys (partitions (self s')))
  /\ (cmd m <> CMD_DISARM ->
      Py.get k (partitions (self s')) = Some AlarmState.ARMED_MODE0)
  /\ (cmd m = CMD_DISARM ->
      Py.get k (partitions (self s')) = Some AlarmState.DISARMED).
Proof.
  intros Hc Hl Hk s'. subst s'.
  assert (Hm : is_mutating (cmd m) = true /\ selection lib m = Some parts).
  { unfold selection. simpl in Hc.
    destruct Hc as [<-|[<-|[<-|[<-|[<-|[]]]]]]; now split. }
  destruct Hm as [Hm Hs].
  split; [intros Hq; exact (mutating_returns m w s Hm Hs Hq)|].
  rewrite process_command_self. unfold effect. rewrite Hl. simpl in Hc.
  destruct Hc as [<-|[<-|[<-|[<-|[<-|[]]]]]]; simpl;
    (split; [rewrite keys_set_all; now left|]);
    (split; intros H; try discriminate H; try (now contradiction H);
     now apply get_set_all_in).
Qed.

(** C3 (amended): starting from a partition map whose indices are
    1..4, after any sequence of connections and reads in which every
    ARM or DISARM frame addresses partitions within [1,4] only, the
    indices of the partition map are still exactly 1..4.  Nothing
    checks the range: whatever index the bitmask of an ARM or DISARM
    frame addresses, in [1,4] or above, the frame is not rejected (its
    handler returns when no write raises) and the index is an index of
    the partition map afterwards, armed in mode 0 by an ARM frame and
    disarmed by a DISARM frame. *)
Theorem partition_indices_stay_in_range evs s :
  Py.keys (partitions (self s)) = [1; 2; 3; 4] ->
  (forall w r m, In (Readuntil w r) evs -> received lib r = Some m ->
                 Forall (fun k => 1 <= k <= 4) (addressed_partitions lib m)) ->
  Py.keys (partitions (self (run evs s))) = [1; 2; 3; 4]
  /\ (forall m w s0 parts k,
        In (cmd m) [CMD_ARM_MODE_0; CMD_ARM_MODE_1; CMD_ARM_MODE_2; CMD_ARM_MODE_3;
                    CMD_DISARM] ->
        list_set_bits m 8 4 = Some parts ->
        In k parts ->
        let s' := snd (process_command m w s0) in
        ((forall c, In c (clients (self s0)) -> write_raises s0 c = false) ->
         fst (dispatch m w s0) = Return tt)
        /\ In k (Py.keys (partitions (self s')))
        /\ (cmd m <> CMD_DISARM ->
            Py.get k (partitions (self s')) = Some AlarmState.ARMED_MODE0)
        /\ (cmd m = CMD_DISARM ->
            Py.get k (partitions (self s')) = Some AlarmState.DISARMED)).
Proof.
  intros Hk Hevs. split.
  - unfold run. revert s Hk Hevs.
    induction evs as [|ev evs IH]; intros s Hk Hevs; simpl; [exact Hk|].
    apply IH.
    + apply serve_partition_keys; [exact Hk|].
      intros w r m -> Hr. apply (Hevs w r m); [now left | exact Hr].
    + intros w r m Hin Hr. apply (Hevs w r m); [now right | exact Hr].
  - intros m w s0 parts k. apply addressed_partition_is_assigned.
Qed.

End PartitionRange.


(** A session whose ARM frame stays within [1,4]; and, for the general
    part, ARM_MODE_0 addressing partition 8 on the initial emulator. *)
Lemma partition_indices_stay_in_range_witness :
  let lib := SpecLibrary.library in
  let s := calm init temp_21 in
  let s0 := calm (connected [1]%nat) temp_21 in
  let s' := snd (process_command arm_mode_0_partition_8 1%nat s0) in
  Py.keys (partitions (self s)) = [1; 2; 3; 4]
  /\ (forall w r m, In (Readuntil w r) in_range_session ->
                    received lib r = Some m ->
                    Forall (fun k => 1 <= k <= 4) (addressed_partitions lib m))
  /\ Py.keys (partitions (self (run in_range_session s))) = [1; 2; 3; 4]
  /\ fst (dispatch arm_mode_0_partition_8 1%nat s0) = Return tt
  /\ In 8 (Py.keys (partitions (self s')))
  /\ Py.get 8 (partitions (self s')) = Some AlarmState.ARMED_MODE0.
Proof.
  intros lib s s0 s'.
  assert (H : forall w r m, In (Readuntil w r) in_range_session ->
                received lib r = Some m ->
                Forall (fun k => 1 <= k <= 4) (addressed_partitions lib m)).
  { intros w r m [Hin|[Hin|[]]] Hr; [discriminate Hin|].
    injection Hin as _ <-. vm_compute in Hr. injection Hr as <-.
    vm_compute. repeat constructor; discriminate. }
  split; [reflexivity|]. split; [exact H|].
  destruct (@partition_indices_stay_in_range lib in_range_session s eq_refl H)
    as [K G].
  split; [exact K|].
  destruct (G arm_mode_0_partition_8 1%nat s0 [8] 8
              (or_introl eq_refl) eq_refl (or_introl eq_refl))
    as (G1 & G2 & G3 & _).
  split; [apply G1; intros c _; reflexivity|].
  split; [exact G2|]. apply G3. discriminate.
Defined.

(** C3, as stated, fails: an ARM_MODE_0 frame whose bitmask addresses
    partition 8 is acknowledged like any other and adds index 8 to the
    partition map; nothing is raised or logged as an error. *)
Lemma arm_partition_8_is_applied :
  let lib := SpecLibrary.library in
  let s' := run out_of_range_session (calm init temp_21) in
  list_set_bits arm_mode_0_partition_8 8 4 = Some [8]
  /\ Py.keys (partitions (self s')) = [1; 2; 3; 4; 8]
  /\ Py.get 8 (partitions (self s')) = Some AlarmState.ARMED_MODE0
  /\ ~ partition_indices_in_range (self s')
  /\ frames_to 1%nat (wire s')
     = map encode_frame [RESPONSE_OK; Message_partitions ARMED_MODE0 [8]]
  /\ logged s'
     = [info_new_connection 1%nat;
        debug_received 1%nat arm_mode_0_partition_8;
        debug_sent 1%nat RESPONSE_OK;
        debug_sent 1%nat (Message_partitions ARMED_MODE0 [8])].
Proof.
  intros lib s'. repeat split; try reflexivity.
  intros H. unfold partition_indices_in_range in H.
  rewrite Forall_forall in H. specialize (H 8).
  assert (Hin : In 8 (Py.keys (partitions (self s')))) by (vm_compute; tauto).
  specialize (H Hin). lia.
Qed.

(* ================================================================= *)
(** ** Write failures during a broadcast *)

Section Delivery.
Context {lib : SatelLibrary}.

Lemma reached_prefix raises before bad after :
  (forall c, In c before -> raises c = false) ->
  raises bad = true ->
  reached raises (before ++ bad :: after) = before
  /\ first_raising raises (before ++ bad :: after) = Some bad.
Proof.
  intros Hb Hbad. induction before as [|x r IH]; simpl.
  - now rewrite Hbad.
  - rewrite (Hb x (or_introl eq_refl)).
    destruct IH as [IH1 IH2]; [intros c Hc; apply Hb; now right|].
    now rewrite IH1, IH2.
Qed.

(** In [send_response] nothing catches: were the write to a client to
    raise, the exception would leave the loop and the clients after
    that one would not be written. *)
Lemma broadcast_stops_at_first_write_error message s before bad after :
  clients (self s) = before ++ bad :: after ->
  (forall c, In c before -> write_raises s c = false) ->
  write_raises s bad = true ->
  fst (send_response message None s) = Raise (WriteError bad)
  /\ wire (snd (send_response message None s))
     = wire s ++ map (fun c => (c, encode_frame message)) before.
Proof.
  intros Hc Hb Hbad. rewrite send_response_run. simpl.
  rewrite Hc. destruct (reached_prefix _ before bad after Hb Hbad) as [R F].
  now rewrite R, F.
Qed.

(** *** The loop of [notify_state_change] *)

Lemma for_each_client_changed used turns pos body s :
  length (clients (self s)) <> used ->
  for_each_client used turns pos body s = (Raise RuntimeError, s).
Proof.
  intros H. apply Nat.eqb_neq in H.
  destruct turns; simpl; unfold bind, get_self; now rewrite H.
Qed.

Lemma for_each_client_next used turns pos body s c :
  length (clients (self s)) = used ->
  nth_error (clients (self s)) pos = Some c ->
  for_each_client used (S turns) pos body s
  = (body c ;; for_each_client used turns (S pos) body) s.
Proof.
  intros H N. apply Nat.eqb_eq in H.
  simpl. unfold bind at 1, get_self. now rewrite H, N.
Qed.

Lemma for_each_client_end used turns pos body s :
  length (clients (self s)) = used ->
  nth_error (clients (self s)) pos = None ->
  for_each_client used turns pos body s = (Return tt, s).
Proof.
  intros H N. apply Nat.eqb_eq in H.
  destruct turns; simpl; unfold bind, get_self; now rewrite H, ?N.
Qed.

(** As long as the client set stays as it is the loop visits the
    clients in the order of the set, like a loop over a copy. *)
Lemma for_each_client_prefix used body before :
  forall pre post turns s,
    clients (self s) = pre ++ before ++ post ->
    length (clients (self s)) = used ->
    (forall b, In b before -> forall s',
        fst (body b s') = Return tt /\ self (snd (body b s')) = self s') ->
    for_each_client used (length before + turns) (length pre) body s
    = (for_each before body ;;
       for_each_client used turns (length pre + length before) body) s.
Proof.
  induction before as [|b bs IH]; intros pre post turns s Hc Hu Hq.
  - simpl. now rewrite Nat.add_0_r.
  - simpl length. simpl Nat.add.
    rewrite (@for_each_client_next used (length bs + turns) (length pre) body s b Hu).
    2:{ rewrite Hc, nth_error_app2, Nat.sub_diag by lia. reflexivity. }
    destruct (Hq b (or_introl eq_refl) s) as [Q1 Q2].
    destruct (body b s) as [[[]|e] s1] eqn:E; simpl in Q1, Q2; [|discriminate].
    simpl for_each.
    unfold bind at 1. rewrite E.
    replace (S (length pre)) with (length (pre ++ [b]))
      by (rewrite length_app; simpl; lia).
    replace (length pre + S (length bs))%nat with (length (pre ++ [b]) + length bs)%nat
      by (rewrite length_app; simpl; lia).
    etransitivity; [apply (IH (pre ++ [b]) post turns s1)|].
    + rewrite Q2, Hc, <- app_assoc. reflexivity.
    + now rewrite Q2.
    + intros x Hx. apply Hq. now right.
    + unfold bind. now rewrite E.
Qed.

(** One client of [notify_state_change] while no other task runs: the
    exception of its write or of its drain is caught and logged. *)
Lemma notify_one frame c s :
  let r := try_except (writer_write c frame ;; await_drain [] c)
                      (fun ex => logger (error_notifying_client ex)) s in
  fst r = Return tt
  /\ self (snd r) = self s
  /\ write_raises (snd r) = write_raises s
  /\ drain_raises (snd r) = drain_raises s
  /\ wire (snd r) = wire s ++ (if write_raises s c then [] else [(c, frame)])
  /\ logged (snd r) = logged s ++ notify_errors s c.
Proof.
  unfold await_drain, try_except, bind, writer_write, writer_drain, notify_errors.
  destruct (write_raises s c) eqn:Ew; simpl.
  - now rewrite app_nil_r.
  - destruct (drain_raises s c); simpl; rewrite ?app_nil_r; auto 10.
Qed.

Lemma notify_errors_ext s s' c :
  write_raises s' = write_raises s -> drain_raises s' = drain_raises s ->
  notify_errors s' c = notify_errors s c.
Proof. unfold notify_errors. now intros -> ->. Qed.

(** The clients visited while no other task runs: every one whose write
    does not raise is written, whatever happens to the others. *)
Lemma notify_loop frame meanwhile targets s :
  (forall c, In c targets -> meanwhile c = []) ->
  let r := for_each targets
             (fun client =>
                try_except (writer_write client frame ;;
                            await_drain (meanwhile client) client)
                           (fun ex => logger (error_notifying_client ex))) s in
  fst r = Return tt
  /\ self (snd r) = self s
  /\ write_raises (snd r) = write_raises s
  /\ drain_raises (snd r) = drain_raises s
  /\ wire (snd r)
     = wire s ++ map (fun c => (c, frame))
                     (filter (fun c => negb (write_raises s c)) targets)
  /\ logged (snd r) = logged s ++ flat_map (notify_errors s) targets.
Proof.
  revert s. induction targets as [|c r IH]; intros s Hq; simpl.
  - now rewrite !app_nil_r.
  - rewrite (Hq c (or_introl eq_refl)).
    destruct (notify_one frame c s) as (N1 & N2 & N3 & N4 & N5 & N6).
    destruct (try_except _ _ s) as [[[]|e] s1] eqn:E;
      simpl in N1, N2, N3, N4, N5, N6; [|discriminate].
    erewrite run_bind by exact E.
    destruct (IH s1) as (I1 & I2 & I3 & I4 & I5 & I6);
      [intros x Hx; apply Hq; now right|].
    rewrite I1, I2, I3, I4, I5, I6, N2, N3, N4, N5, N6.
    rewrite (flat_map_ext _ _ (fun x => @notify_errors_ext s s1 x N3 N4)).
    destruct (write_raises s c); simpl; rewrite <- ?app_assoc; auto 10.
Qed.

(** With no other task running during the drains [notify_state_change]
    is a loop over the clients that ends normally. *)
Lemma notify_state_change_undisturbed command items data meanwhile s :
  partition_bytes items 4 = Some data ->
  (forall c, In c (clients (self s)) -> meanwhile c = []) ->
  let r := notify_state_change command items meanwhile s in
  fst r = Return tt
  /\ self (snd r) = self s
  /\ wire (snd r)
     = wire s ++ map (fun c => (c, encode_frame (Message command data)))
                     (filter (fun c => negb (write_raises s c)) (clients (self s)))
  /\ logged (snd r) = logged s ++ flat_map (notify_errors s) (clients (self s)).
Proof.
  intros H Hq.
  set (frame := encode_frame (Message command data)).
  set (body := fun client : Writer =>
                 try_except (writer_write client frame ;;
                             await_drain (meanwhile client) client)
                            (fun ex => logger (error_notifying_client ex))).
  destruct (notify_loop frame meanwhile (clients (self s)) s Hq)
    as (I1 & I2 & I3 & I4 & I5 & I6).
  fold body in I1, I2, I3, I4, I5, I6.
  destruct (for_each (clients (self s)) body s) as [[[]|e] s1] eqn:E;
    simpl in I1, I2, I3, I4, I5, I6; [|discriminate].
  assert (R : notify_state_change command items meanwhile s = (Return tt, s1)).
  { unfold notify_state_change.
    unfold bind at 1. rewrite H. simpl or_raise. unfold ret at 1.
    unfold bind at 1, get_self.
    change (for_each_client (length (clients (self s)))
              (length (clients (self s))) (length (@nil Writer)) body s
            = (Return tt, s1)).
    pose proof (@for_each_client_prefix (length (clients (self s))) body
                  (clients (self s)) [] [] 0%nat s) as P.
    rewrite Nat.add_0_r in P. rewrite P; clear P.
    - erewrite run_bind by exact E.
      rewrite for_each_client_end; [reflexivity | now rewrite I2 |].
      rewrite I2. now apply nth_error_None.
    - now rewrite app_nil_r.
    - reflexivity.
    - intros b Hb s'. unfold body. rewrite (Hq b Hb).
      destruct (notify_one frame b s') as (N1 & N2 & _).
      now split. }
  intros r. subst r. rewrite R. simpl. auto.
Qed.

Lemma filter_shorter w (l : list Writer) :
  In w l -> length (filter (fun c => negb (Nat.eqb w c)) l) <> length l.
Proof.
  intros H.
  assert (G : (length (filter (fun c => negb (Nat.eqb w c)) l) < length l)%nat).
  { induction l as [|x r IH]; simpl; [contradiction|].
    destruct (Nat.eqb w x) eqn:E; simpl.
    - apply Nat.lt_succ_r, filter_length_le.
    - destruct H as [->|H]; [now rewrite Nat.eqb_refl in E|].
      specialize (IH H). lia. }
  lia.
Qed.

Lemma mem_In w l : mem w l = true <-> In w l.
Proof.
  unfold mem. rewrite existsb_exists. split.
  - intros [x [Hx E]]. apply Nat.eqb_eq in E. now subst.
  - intros H. exists w. split; [exact H | apply Nat.eqb_refl].
Qed.

(** C4 (what the code does): [notify_state_change] catches and logs the
    failure of a client inside the loop, but the loop runs over the
    client set itself and is suspended in [drain].  When the connection
    of a client is lost, its [drain] yields to the event loop, the
    [handle_client] of that connection gets its read failure and
    removes the client from the set, and [drain] raises: the exception
    is caught and logged, and then the [for] statement raises
    RuntimeError, outside the [try].  The clients that come after the
    failing one are not written. *)
Theorem notify_stops_when_failing_client_leaves
    command items data meanwhile s before bad after :
  partition_bytes items 4 = Some data ->
  clients (self s) = before ++ bad :: after ->
  (forall c, In c before -> meanwhile c = []) ->
  meanwhile bad = [Readuntil bad Failed] ->
  write_raises s bad = false ->
  drain_raises s bad = true ->
  let r := notify_state_change command items meanwhile s in
  fst r = Raise RuntimeError
  /\ wire (snd r)
     = wire s ++ map (fun c => (c, encode_frame (Message command data)))
                     (filter (fun c => negb (write_raises s c)) before ++ [bad])
  /\ logged (snd r)
     = logged s ++ flat_map (notify_errors s) before
       ++ [info_connection_closed bad; error_notifying_client (DrainError bad)].
Proof.
  intros H Hc Hq Hbad Hw Hd.
  set (frame := encode_frame (Message command data)).
  set (body := fun client : Writer =>
                 try_except (writer_write client frame ;;
                             await_drain (meanwhile client) client)
                            (fun ex => logger (error_notifying_client ex))).
  set (used := length (clients (self s))).
  destruct (notify_loop frame meanwhile before s Hq)
    as (I1 & I2 & I3 & I4 & I5 & I6).
  fold body in I1, I2, I3, I4, I5, I6.
  destruct (for_each before body s) as [[[]|e] s1] eqn:E;
    simpl in I1, I2, I3, I4, I5, I6; [|discriminate].
  assert (Hin : mem bad (clients (self s1)) = true).
  { apply mem_In. rewrite I2, Hc. apply in_or_app. right. now left. }
  set (s2 := with_logged
               (with_closed
                  (with_self
                     (with_wire s1 (wire s1 ++ [(bad, frame)]))
                     (Emulator (filter (fun c => negb (Nat.eqb bad c))
                                       (clients (self s1)))
                               (zones (self s1)) (outputs (self s1))
                               (partitions (self s1))))
                  (closed s1 ++ [bad]))
               ((logged s1 ++ [info_connection_closed bad])
                ++ [error_notifying_client (DrainError bad)])).
  assert (B : body bad s1 = (Return tt, s2)).
  { unfold body. rewrite Hbad.
    unfold try_except, bind at 1, writer_write. rewrite I3, Hw.
    unfold await_drain, bind at 1. unfold run. simpl fold_left.
    unfold serve. simpl self. rewrite Hin.
    rewrite (@handle_client_step_stop lib bad Failed _ eq_refl).
    unfold bind at 1. rewrite handle_client_finally_run by exact Hin.
    unfold ret. simpl snd.
    unfold writer_drain. simpl drain_raises. rewrite I4, Hd.
    reflexivity. }
  assert (R : notify_state_change command items meanwhile s
              = (Raise RuntimeError, s2)).
  { unfold notify_state_change.
    unfold bind at 1. rewrite H. simpl or_raise. unfold ret at 1.
    unfold bind at 1, get_self.
    change (for_each_client used used (length (@nil Writer)) body s
            = (Raise RuntimeError, s2)).
    assert (Hlen : used = (length before + S (length after))%nat).
    { unfold used. rewrite Hc, length_app. reflexivity. }
    rewrite Hlen at 2.
    rewrite (@for_each_client_prefix used body before [] (bad :: after)
               (S (length after)) s Hc eq_refl).
    2:{ intros b Hb s'. unfold body. rewrite (Hq b Hb).
        destruct (notify_one frame b s') as (N1 & N2 & _). now split. }
    erewrite run_bind by exact E. simpl length. simpl Nat.add.
    rewrite (@for_each_client_next used (length after) (length before) body s1 bad).
    2:{ now rewrite I2. }
    2:{ rewrite I2, Hc, nth_error_app2, Nat.sub_diag by lia. reflexivity. }
    erewrite run_bind by exact B.
    apply for_each_client_changed.
    unfold s2. simpl self. simpl clients. rewrite I2. apply filter_shorter.
    rewrite Hc. apply in_or_app. right. now left. }
  intros r. subst r. rewrite R. unfold s2. simpl.
  rewrite I5, I6, map_app, <- !app_assoc. simpl. auto.
Qed.

End Delivery.

(** Writers 1, 2 and 3 are connected; the connection of 1 is lost and
    its [handle_client] ends while [notify_state_change] waits in the
    [drain] of 1.  Only 1 is written; 2 and 3 get nothing. *)
Lemma notify_stops_when_failing_client_leaves_witness :
  let lib := SpecLibrary.library in
  let s := disconnected (connected [1; 2; 3]%nat) [1%nat] temp_21 in
  let meanwhile := fun c : Writer =>
                     if Nat.eqb c 1 then [Readuntil 1%nat Failed] else [] in
  let r := notify_state_change OUTPUT_STATE [5; 20] meanwhile s in
  partition_bytes [5; 20] 4 = Some [x08; x00; x10; x00]
  /\ clients (self s) = [] ++ 1%nat :: [2; 3]%nat
  /\ write_raises s 1%nat = false
  /\ drain_raises s 1%nat = true
  /\ fst r = Raise RuntimeError
  /\ map fst (wire (snd r)) = [1%nat]
  /\ logged (snd r)
     = [info_connection_closed 1%nat; error_notifying_client (DrainError 1%nat)].
Proof.
  intros lib s meanwhile r.
  split; [reflexivity|]. split; [reflexivity|].
  split; [reflexivity|]. split; [reflexivity|].
  destruct (@notify_stops_when_failing_client_leaves lib OUTPUT_STATE [5; 20]
              [x08; x00; x10; x00] meanwhile s [] 1%nat [2; 3]%nat
              eq_refl eq_refl (fun c (H : In c []) => match H with end)
              eq_refl eq_refl eq_refl) as (R1 & R2 & R3).
  split; [exact R1|]. split; [|exact R3].
  fold r in R2. rewrite R2. reflexivity.
Defined.

(** The same three writers when no other task runs during the drains:
    1, 2 and 3 are all written, and the failure of 1 is logged. *)
Example notify_state_change_reaches_the_others :
  let lib := SpecLibrary.library in
  let s := disconnected (connected [1; 2; 3]%nat) [1%nat] temp_21 in
  let r := notify_state_change OUTPUT_STATE [5; 20] (fun _ => []) s in
  fst r = Return tt
  /\ map fst (wire (snd r)) = [1; 2; 3]%nat
  /\ logged (snd r) = [error_notifying_client (DrainError 1%nat)].
Proof. repeat split; reflexivity. Qed.

(* ================================================================= *)
(** ** Exceptions inside a handler *)

Section DispatchBoundary.
Context {lib : SatelLibrary}.

Lemma dispatch_rejected m w s :
  payload_rejected lib m -> snd (dispatch m w s) = s.
Proof.
  unfold payload_rejected, selection. destruct m as [c d].
  destruct c; simpl; try contradiction; intros H;
    unfold dispatch, arm, disarm, set_output, read_temperature; simpl;
    unfold bind at 1; rewrite H; reflexivity.
Qed.

(** When no write raises a handler raises only before its first write:
    on a bitmask that does not decode, on a READ_ZONE_TEMP without a
    zone, on a temperature that is no byte. *)
Lemma dispatch_raises_before_writing m w s e :
  (forall c, write_raises s c = false) ->
  fst (dispatch m w s) = Raise e ->
  wire (snd (dispatch m w s)) = wire s.
Proof.
  intros Hq He.
  destruct (is_mutating (cmd m)) eqn:Hm.
  - destruct (selection lib m) as [l|] eqn:Hs.
    + rewrite (mutating_returns m w s Hm Hs (fun c _ => Hq c)) in He.
      discriminate He.
    + rewrite dispatch_rejected; [reflexivity|].
      unfold payload_rejected. now rewrite Hm.
  - destruct (no_raising_client (write_raises s) (clients (self s))
                (fun c _ => Hq c)) as [F R].
    destruct m as [c d]. revert He.
    destruct c; simpl in Hm; try discriminate Hm; unfold dispatch; simpl;
      try (intros He; discriminate He).
    + unfold start_monitoring.
      unfold bind at 1. rewrite send_response_run. simpl. rewrite (Hq w).
      unfold bind at 1, broadcast_outputs.
      unfold bind at 1, get_self. rewrite send_response_run. simpl. rewrite F.
      unfold broadcast_partitions. simpl.
      unfold bind at 1. unfold bind at 1, get_self, ret.
      rewrite send_response_run. simpl. rewrite F.
      intros He; discriminate He.
    + unfold device_info. rewrite send_response_run. simpl. rewrite (Hq w).
      intros He; discriminate He.
    + unfold read_temperature.
      destruct d as [|zone rest]; [intros _; reflexivity|].
      unfold bind, random_uniform_21_24; simpl.
      destruct (temperature_code (uniform_21_24 s (drawn s))) as [code|];
        simpl; [|intros _; reflexivity].
      destruct (bytearray3 (Py.int_of_byte zone) 0 code) as [data|];
        simpl; [|intros _; reflexivity].
      rewrite send_response_run. simpl. rewrite (Hq w).
      intros He; discriminate He.
Qed.

(** C5: for every decoded frame, an exception raised while its handler
    runs is caught by [process_command] and logged; the connection is
    not closed, it stays registered and its loop goes round again, and
    no frame has been written for the failing command.  The writers
    are those of the server's connections, whose [write] does not
    raise. *)
Theorem handler_exception_is_contained w r m s :
  received lib r = Some m ->
  (forall c, write_raises s c = false) ->
  let s1 := snd (logger (debug_received w m) s) in
  let s' := snd (handle_client_step w r s) in
  fst (handle_client_step w r s) = Return true
  /\ closed s' = closed s
  /\ clients (self s') = clients (self s)
  /\ (forall e, fst (dispatch m w s1) = Raise e ->
        logged s' = logged (snd (dispatch m w s1)) ++ [error_processing_command e]
        /\ wire s' = wire s).
Proof.
  intros Hr Hq s1 s'. subst s1 s'. rewrite (handle_client_step_go w r s Hr).
  simpl fst. simpl snd. split; [reflexivity|].
  split; [now rewrite process_command_closed|].
  split; [now rewrite process_command_self, effect_clients|].
  intros e He. rewrite process_command_wire.
  split.
  - unfold process_command, try_except.
    destruct (dispatch m w _) as [[[]|e'] s2]; simpl in *; [discriminate|].
    now injection He as ->.
  - erewrite dispatch_raises_before_writing; [reflexivity | exact Hq | exact He].
Qed.

End DispatchBoundary.

(** Clients 1 and 2 are connected and client 1 sends READ_ZONE_TEMP
    without a zone byte: [msg_data[0]] raises IndexError. *)
Lemma handler_exception_is_contained_witness :
  let lib := SpecLibrary.library in
  let r := Data (encode_frame read_zone_temp_empty) in
  let s := calm (connected [1; 2]%nat) temp_21 in
  let s1 := snd (logger (debug_received 1%nat read_zone_temp_empty) s) in
  let s' := snd (handle_client_step 1%nat r s) in
  received lib r = Some read_zone_temp_empty
  /\ (forall c, write_raises s c = false)
  /\ fst (dispatch read_zone_temp_empty 1%nat s1) = Raise IndexError
  /\ fst (handle_client_step 1%nat r s) = Return true
  /\ closed s' = closed s
  /\ clients (self s') = clients (self s)
  /\ (forall e, fst (dispatch read_zone_temp_empty 1%nat s1) = Raise e ->
        logged s' = logged (snd (dispatch read_zone_temp_empty 1%nat s1))
                    ++ [error_processing_command e]
        /\ wire s' = wire s).
Proof.
  intros lib r s s1 s'.
  split; [reflexivity|]. split; [reflexivity|]. split; [reflexivity|].
  apply (@handler_exception_is_contained lib 1%nat r read_zone_temp_empty s
           eq_refl (fun _ => eq_refl)).
Defined.

(* ================================================================= *)
(** ** The end of a connection *)

Section Teardown.
Context {lib : SatelLibrary}.

Lemma filter_other w (l : list Writer) c :
  c <> w ->
  In c (filter (fun x => negb (Nat.eqb w x)) l) <-> In c l.
Proof.
  intros Hne. rewrite filter_In. split; [tauto|].
  intros H. split; [exact H|].
  destruct (Nat.eqb_spec w c); [congruence | reflexivity].
Qed.

Lemma filter_self w (l : list Writer) :
  ~ In w (filter (fun x => negb (Nat.eqb w x)) l).
Proof.
  rewrite filter_In. intros [_ H]. now rewrite Nat.eqb_refl in H.
Qed.

Lemma mem_false w (l : list Writer) : ~ In w l -> mem w l = false.
Proof.
  intros H. unfold mem. destruct (existsb (Nat.eqb w) l) eqn:E; [|reflexivity].
  apply existsb_exists in E. destruct E as [x [Hx Ex]].
  apply Nat.eqb_eq in Ex. subst x. contradiction.
Qed.

(** C6: when the read of a connection fails (read error, peer closed),
    gives nothing, or gives bytes that [decode_frame] rejects, the loop
    of that connection ends: its writer is removed from the client set
    and closed, nothing is written to anyone, the device attributes and
    the other clients stay as they were, and no later read of that
    connection is served. *)
Theorem connection_teardown w r s :
  mem w (clients (self s)) = true ->
  (r = Failed \/ exists d, r = Data d /\ (d = [] \/ decode_frame d = None)) ->
  let s' := snd (handle_client_step w r s) in
  fst (handle_client_step w r s) = Return false
  /\ clients (self s') = filter (fun c => negb (Nat.eqb w c)) (clients (self s))
  /\ ~ In w (clients (self s'))
  /\ (forall c, c <> w -> (In c (clients (self s')) <-> In c (clients (self s))))
  /\ closed s' = closed s ++ [w]
  /\ wire s' = wire s
  /\ zones (self s') = zones (self s)
  /\ outputs (self s') = outputs (self s)
  /\ partitions (self s') = partitions (self s)
  /\ (forall rest, handle_client_loop w (r :: rest) s = (Return false, s'))
  /\ (forall r', serve s' (Readuntil w r') = s').
Proof.
  intros Hw Hr s'.
  assert (Hn : received lib r = None).
  { destruct Hr as [->|(d & -> & [->|Hd])]; try reflexivity.
    destruct d; [reflexivity | exact Hd]. }
  assert (E : handle_client_step w r s
              = (Return false,
                 with_logged
                   (with_closed
                      (with_self s
                         (Emulator (filter (fun c => negb (Nat.eqb w c)) (clients (self s)))
                                   (zones (self s)) (outputs (self s))
                                   (partitions (self s))))
                      (closed s ++ [w]))
                   (logged s ++ [info_connection_closed w]))).
  { rewrite (handle_client_step_stop w r s Hn).
    unfold bind. now rewrite (handle_client_finally_run w s Hw). }
  subst s'. rewrite E. simpl.
  repeat split; try reflexivity.
  - apply filter_self.
  - now apply filter_other.
  - now apply filter_other.
  - intros rest. unfold bind. now rewrite E.
  - intros r'. unfold with_logged, with_closed, with_self. simpl.
    now rewrite (mem_false _ _ (filter_self w (clients (self s)))).
Qed.

End Teardown.

(** Clients 1 and 2 are connected; client 1 sends the terminator with no
    command byte before it. *)
Lemma connection_teardown_witness :
  let lib := SpecLibrary.library in
  let r := Data [xfe; x0d] in
  let s := calm (connected [1; 2]%nat) temp_21 in
  let s' := snd (handle_client_step 1%nat r s) in
  mem 1%nat (clients (self s)) = true
  /\ (r = Failed \/ exists d, r = Data d /\ (d = [] \/ decode_frame d = None))
  /\ clients (self s') = [2%nat]
  /\ fst (handle_client_step 1%nat r s) = Return false
  /\ clients (self s') = filter (fun c => negb (Nat.eqb 1%nat c)) (clients (self s))
  /\ ~ In 1%nat (clients (self s'))
  /\ (forall c, c <> 1%nat -> (In c (clients (self s')) <-> In c (clients (self s))))
  /\ closed s' = closed s ++ [1%nat]
  /\ wire s' = wire s
  /\ zones (self s') = zones (self s)
  /\ outputs (self s') = outputs (self s)
  /\ partitions (self s') = partitions (self s)
  /\ (forall rest, handle_client_loop 1%nat (r :: rest) s = (Return false, s'))
  /\ (forall r', serve s' (Readuntil 1%nat r') = s').
Proof.
  intros lib r s s'.
  assert (H : r = Failed
              \/ exists d, r = Data d /\ (d = [] \/ decode_frame d = None)).
  { right. exists [xfe; x0d]. split; [reflexivity | right; reflexivity]. }
  split; [reflexivity|]. split; [exact H|]. split; [reflexivity|].
  apply (@connection_teardown lib 1%nat r s eq_refl H).
Defined.

(* ================================================================= *)
(** ** Double precision arithmetic on the values the emulator meets *)

Section Doubles.

Lemma digits2_pos_size p : digits2_pos p = Pos.size p.
Proof. induction p; simpl; congruence. Qed.

Lemma Zdigits2_log2 n : 0 < n -> Zdigits2 n = Z.log2 n + 1.
Proof.
  destruct n as [|p|p]; try lia. intros _. simpl Zdigits2.
  rewrite digits2_pos_size. destruct p; simpl; lia.
Qed.

(** The number of binary digits of a number between two powers of 2. *)
Lemma Zdigits2_between n k :
  0 < k -> 2 ^ (k - 1) <= n < 2 ^ k -> Zdigits2 n = k.
Proof.
  intros Hk Hn.
  assert (0 < 2 ^ (k - 1)) by (apply Z.pow_pos_nonneg; lia).
  rewrite Zdigits2_log2 by lia.
  assert (Hl : Z.log2 n = k - 1).
  { apply Z.log2_unique; [lia|]. now replace (Z.succ (k - 1)) with k by lia. }
  rewrite Hl. lia.
Qed.

Lemma fexp_normal x : -1021 <= x -> fexp Py.prec Py.emax x = x - 53.
Proof. intros H. unfold fexp, emin, Py.prec, Py.emax. lia. Qed.

Lemma shr_1_nonneg m r s :
  0 <= m ->
  shr_1 (Build_shr_record m r s) = Build_shr_record (Z.div2 m) (Z.odd m) (r || s).
Proof.
  intros H. destruct m as [|p|p]; [reflexivity | destruct p; reflexivity | lia].
Qed.

Lemma iter_pos_nat (A : Type) (f : A -> A) p x :
  iter_pos f p x = Nat.iter (Pos.to_nat p) f x.
Proof.
  revert x. induction p as [p IH|p IH|]; intros x.
  - change (iter_pos f p~1 x) with (iter_pos f p (iter_pos f p (f x))).
    rewrite !IH, Pos2Nat.inj_xI.
    replace (S (2 * Pos.to_nat p)) with (Pos.to_nat p + (Pos.to_nat p + 1))%nat by lia.
    rewrite !Nat.iter_add. reflexivity.
  - change (iter_pos f p~0 x) with (iter_pos f p (iter_pos f p x)).
    rewrite !IH, Pos2Nat.inj_xO.
    replace (2 * Pos.to_nat p)%nat with (Pos.to_nat p + Pos.to_nat p)%nat by lia.
    now rewrite Nat.iter_add.
  - reflexivity.
Qed.

(** Shifting out [k] zero bits is exact. *)
Lemma shr_exact k m :
  0 <= m ->
  Nat.iter k shr_1 (Build_shr_record (m * 2 ^ Z.of_nat k) false false)
  = Build_shr_record m false false.
Proof.
  revert m. induction k as [|k IH]; intros m Hm.
  - simpl. now rewrite Z.mul_1_r.
  - assert (E : m * 2 ^ Z.of_nat (S k) = 2 * (m * 2 ^ Z.of_nat k)).
    { rewrite Nat2Z.inj_succ, Z.pow_succ_r by lia. ring. }
    assert (Hp : 0 <= m * 2 ^ Z.of_nat k).
    { apply Z.mul_nonneg_nonneg; [exact Hm|]. apply Z.pow_nonneg. lia. }
    rewrite Nat.iter_succ_r, E, shr_1_nonneg by lia.
    rewrite Z.div2_div, Z.odd_mul, (Z.mul_comm 2), Z.div_mul by lia.
    simpl. now apply IH.
Qed.

(** Rounding a [53 + k]-digit mantissa back to 53 digits, in the range
    of the normal numbers. *)
Lemma binary_round_aux_shift (M : positive) (e : Z) (k : positive) n :
  Zdigits2 (Z.pos M) = 53 + Z.pos k ->
  -1021 <= 53 + Z.pos k + e ->
  e + Z.pos k <= 971 ->
  n = (let rec := iter_pos shr_1 k (Build_shr_record (Z.pos M) false false) in
       round_nearest_even (shr_m rec) (loc_of_shr_record rec)) ->
  2 ^ 52 <= n < 2 ^ 53 ->
  binary_round_aux Py.prec Py.emax false (Z.pos M) e loc_Exact
  = S754_finite false (Z.to_pos n) (e + Z.pos k).
Proof.
  intros Hd Hlo Hhi Hn Hn53.
  unfold binary_round_aux, shr_fexp. rewrite Hd.
  rewrite fexp_normal by exact Hlo.
  replace (53 + Z.pos k + e - 53 - e) with (Z.pos k) by lia.
  simpl shr_record_of_loc. unfold shr at 1.
  simpl in Hn. rewrite <- Hn.
  assert (Hdn : Zdigits2 n = 53) by (apply Zdigits2_between; [lia | exact Hn53]).
  rewrite Hdn.
  rewrite fexp_normal by lia.
  replace (53 + (e + Z.pos k) - 53 - (e + Z.pos k)) with 0 by lia.
  simpl shr. simpl shr_m.
  assert (0 < 2 ^ 52) by (apply Z.pow_pos_nonneg; lia).
  destruct n as [|p|p]; try lia.
  unfold Py.emax, Py.prec.
  destruct (Z.leb_spec (e + Z.pos k) (1024 - 53)); [reflexivity | lia].
Qed.

(** Dropping the last two bits of a mantissa, to nearest even. *)
Lemma round_quarter_bounds (Mz lo hi : Z) :
  4 * lo <= Mz <= 4 * hi ->
  let r2 := shr_1 (shr_1 (Build_shr_record Mz false false)) in
  0 <= Mz ->
  lo <= round_nearest_even (shr_m r2) (loc_of_shr_record r2) <= hi.
Proof.
  intros HM r2 H0. subst r2.
  pose proof (Z.div2_odd Mz) as E0.
  pose proof (Z.div2_odd (Z.div2 Mz)) as E1.
  assert (0 <= Z.div2 Mz) by (apply Z.div2_nonneg; exact H0).
  rewrite !shr_1_nonneg by assumption.
  destruct (Z.odd (Z.div2 Mz)), (Z.odd Mz);
    cbn [shr_m loc_of_shr_record round_nearest_even orb Z.b2z] in *;
    try destruct (Z.even (Z.div2 (Z.div2 Mz))); lia.
Qed.

(** [temp + 55] for a double [temp] of [21, 24]: the sum has 55 digits
    and loses its last two. *)
Lemma fadd_55 m :
  21 * 2 ^ 48 <= Z.pos m <= 24 * 2 ^ 48 ->
  exists n,
    Py.fadd (S754_finite false m (-48)) (Py.float_of_int 55)
    = S754_finite false n (-46)
    /\ 76 * 2 ^ 46 <= Z.pos n <= 79 * 2 ^ 46.
Proof.
  intros Hm.
  change (Py.float_of_int 55) with (S754_finite false 7740561859543040 (-47)).
  change (Py.fadd (S754_finite false m (-48))
                  (S754_finite false 7740561859543040 (-47)))
    with (binary_round Py.prec Py.emax false (m + 15481123719086080) (-48)).
  set (M := (m + 15481123719086080)%positive).
  assert (HM : Z.pos M = Z.pos m + 15481123719086080)
    by (subst M; apply Pos2Z.inj_add).
  change (2 ^ 48) with 281474976710656 in Hm.
  change (2 ^ 46) with 70368744177664.
  assert (Hd : Zdigits2 (Z.pos M) = 55).
  { apply Zdigits2_between; [lia|].
    change (2 ^ (55 - 1)) with 18014398509481984.
    change (2 ^ 55) with 36028797018963968. lia. }
  unfold binary_round.
  change (Z.pos (digits2_pos M)) with (Zdigits2 (Z.pos M)). rewrite Hd.
  change (shl_align M (-48) (fexp Py.prec Py.emax (55 + -48))) with (M, -48).
  cbv iota beta.
  pose proof (@round_quarter_bounds (Z.pos M) (76 * 70368744177664)
                (79 * 70368744177664)) as Hn.
  cbv zeta in Hn. specialize (Hn ltac:(lia) ltac:(lia)).
  set (n := round_nearest_even _ _) in Hn.
  exists (Z.to_pos n). split.
  - replace (-46) with (-48 + Z.pos 2) by reflexivity.
    apply binary_round_aux_shift; [exact Hd | lia | lia | reflexivity |].
    change (2 ^ 52) with 4503599627370496.
    change (2 ^ 53) with 9007199254740992. lia.
  - rewrite Z2Pos.id by lia. exact Hn.
Qed.

(** Doubling a double of [64, 128): the mantissa stays, the exponent
    goes up by one. *)
Lemma fmul_2 n :
  2 ^ 52 <= Z.pos n < 2 ^ 53 ->
  Py.fmul (S754_finite false n (-46)) (Py.float_of_int 2)
  = S754_finite false n (-45).
Proof.
  intros Hn.
  change (Py.float_of_int 2) with (S754_finite false 4503599627370496 (-51)).
  change (Py.fmul (S754_finite false n (-46))
                  (S754_finite false 4503599627370496 (-51)))
    with (binary_round_aux Py.prec Py.emax false
            (Z.pos (n * 4503599627370496)) (-97) loc_Exact).
  assert (HM : Z.pos (n * 4503599627370496) = Z.pos n * 2 ^ Z.of_nat 52)
    by (rewrite Pos2Z.inj_mul; reflexivity).
  change (2 ^ 52) with 4503599627370496 in Hn.
  change (2 ^ 53) with 9007199254740992 in Hn.
  replace (S754_finite false n (-45))
    with (S754_finite false (Z.to_pos (Z.pos n)) (-97 + Z.pos 52)) by reflexivity.
  apply binary_round_aux_shift; [| lia | lia | |].
  - apply Zdigits2_between; [lia|]. rewrite HM.
    change (2 ^ Z.of_nat 52) with 4503599627370496.
    change (2 ^ (53 + Z.pos 52 - 1)) with 20282409603651670423947251286016.
    change (2 ^ (53 + Z.pos 52)) with 40564819207303340847894502572032.
    lia.
  - rewrite iter_pos_nat, HM.
    change (Pos.to_nat 52) with 52%nat.
    rewrite shr_exact by lia. reflexivity.
  - change (2 ^ 52) with 4503599627370496.
    change (2 ^ 53) with 9007199254740992. lia.
Qed.

(** [int((temp + 55) * 2)] for a double [temp] of [21, 24]. *)
Lemma temperature_code_range m :
  21 * 2 ^ 48 <= Z.pos m <= 24 * 2 ^ 48 ->
  exists code,
    temperature_code (S754_finite false m (-48)) = Some code
    /\ 152 <= code <= 158.
Proof.
  intros Hm. unfold temperature_code.
  destruct (@fadd_55 m Hm) as (n & -> & Hn).
  change (2 ^ 46) with 70368744177664 in Hn.
  rewrite fmul_2.
  - simpl Py.int_of_float. eexists. split; [reflexivity|].
    change (2 ^ 45) with 35184372088832.
    split.
    + apply Z.div_le_lower_bound; lia.
    + apply Z.lt_succ_r. apply Z.div_lt_upper_bound; lia.
  - change (2 ^ 52) with 4503599627370496.
    change (2 ^ 53) with 9007199254740992. lia.
Qed.

End Doubles.

(* ================================================================= *)
(** ** READ_ZONE_TEMP *)

Section Temperature.
Context {lib : SatelLibrary}.

(** [x <= y] on two positive finite doubles compares the exponents,
    then the mantissas. *)
Lemma SFleb_finite m1 e1 m2 e2 :
  SFleb (S754_finite false m1 e1) (S754_finite false m2 e2) = true ->
  e1 < e2 \/ (e1 = e2 /\ Z.pos m1 <= Z.pos m2).
Proof.
  unfold SFleb, SFcompare.
  destruct (Z.compare_spec e1 e2) as [He|He|He].
  - rewrite Pos.compare_cont_spec.
    destruct (Pos.compare_spec m1 m2) as [C|C|C]; simpl; intros H;
      try discriminate H; right; split; try exact He; lia.
  - intros _. now left.
  - discriminate.
Qed.

(** A double between 21.0 and 24.0 has exponent -48 and its mantissa
    between [21 * 2^48] and [24 * 2^48]. *)
Lemma between_21_24 temp :
  Py.fle (Py.float_of_int 21) temp = true ->
  Py.fle temp (Py.float_of_int 24) = true ->
  exists mant, temp = S754_finite false mant (-48)
               /\ 21 * 2 ^ 48 <= Z.pos mant <= 24 * 2 ^ 48.
Proof.
  change (Py.float_of_int 21) with (S754_finite false 5910974510923776 (-48)).
  change (Py.float_of_int 24) with (S754_finite false 6755399441055744 (-48)).
  change (2 ^ 48) with 281474976710656.
  unfold Py.fle.
  destruct temp as [sg|sg| |sg mant e]; try destruct sg; try discriminate.
  intros H1 H2. apply SFleb_finite in H1. apply SFleb_finite in H2.
  assert (e = -48) by lia. subst e.
  exists mant. split; [reflexivity | lia].
Qed.

Lemma byte_of_int_of_byte b : Py.byte_of_int (Py.int_of_byte b) = Some b.
Proof.
  unfold Py.byte_of_int, Py.int_of_byte.
  pose proof (Byte.to_N_bounded b) as Hb.
  destruct (Z.leb_spec 0 (Z.of_N (Byte.to_N b))); [|lia].
  destruct (Z.ltb_spec (Z.of_N (Byte.to_N b)) 256); [|lia].
  simpl. rewrite N2Z.id. apply Byte.of_to_N.
Qed.

Lemma byte_of_int_some z :
  0 <= z < 256 -> exists b, Py.byte_of_int z = Some b /\ Py.int_of_byte b = z.
Proof.
  intros Hz. unfold Py.byte_of_int, Py.int_of_byte.
  destruct (Z.leb_spec 0 z); [|lia]. destruct (Z.ltb_spec z 256); [|lia]. simpl.
  destruct (Byte.of_N (Z.to_N z)) as [b|] eqn:E.
  - exists b. split; [reflexivity|]. apply Byte.to_of_N in E. rewrite E. lia.
  - apply Byte.of_N_None_iff in E. lia.
Qed.

(** The run of [read_temperature] when the request names a zone, the
    draw is a double of [21, 24] and the write goes through. *)
Lemma read_temperature_run m w s zone rest :
  cmd m = CMD_READ_ZONE_TEMP ->
  msg_data m = zone :: rest ->
  Py.fle (Py.float_of_int 21) (uniform_21_24 s (drawn s)) = true ->
  Py.fle (uniform_21_24 s (drawn s)) (Py.float_of_int 24) = true ->
  write_raises s w = false ->
  exists code b,
    temperature_code (uniform_21_24 s (drawn s)) = Some code
    /\ 152 <= code <= 158
    /\ Py.int_of_byte b = code
    /\ process_command m w s
       = (Return tt,
          with_logged
            (with_wire (with_drawn s (S (drawn s)))
               (wire s ++ [(w, encode_frame (Message ZONE_TEMP [zone; x00; b]))]))
            (logged s ++ [debug_sent w (Message ZONE_TEMP [zone; x00; b])])).
Proof.
  intros Hc Hd H21 H24 Hw.
  destruct (between_21_24 _ H21 H24) as (mant & Ht & Hm).
  destruct (temperature_code_range Hm) as (code & Hcode & Hrange).
  destruct (@byte_of_int_some code ltac:(lia)) as (b & Hb & Hbi).
  exists code, b. rewrite Ht. repeat split; try assumption; try lia.
  destruct m as [c d]. simpl in Hc, Hd. subst c d.
  unfold process_command, try_except, dispatch, read_temperature. simpl.
  unfold bind at 1. simpl. unfold bind at 1. unfold random_uniform_21_24 at 1.
  rewrite Ht. unfold bind at 1. rewrite Hcode. simpl or_raise. unfold ret at 1.
  unfold bind at 1, bytearray3.
  rewrite byte_of_int_of_byte, Hb.
  change (Py.byte_of_int 0) with (Some x00). simpl or_raise. unfold ret at 1.
  rewrite send_response_run. unfold after_send. simpl. rewrite Hw. reflexivity.
Qed.

(** C7 (amended): for a READ_ZONE_TEMP command with at least one
    payload byte, answered while the draw is a double of [21, 24], the
    temperature byte of the ZONE_TEMP response is [int((celsius + 55) *
    2)], the double-precision value cut to its integer part (not
    rounded to the nearest integer); it lies in [152, 158]. *)
Theorem zone_temp_byte_is_truncated m w s zone rest :
  cmd m = CMD_READ_ZONE_TEMP ->
  msg_data m = zone :: rest ->
  Py.fle (Py.float_of_int 21) (uniform_21_24 s (drawn s)) = true ->
  Py.fle (uniform_21_24 s (drawn s)) (Py.float_of_int 24) = true ->
  write_raises s w = false ->
  exists b0 b1 b2,
    wire (snd (process_command m w s))
    = wire s ++ [(w, encode_frame (Message ZONE_TEMP [b0; b1; b2]))]
    /\ Py.int_of_float
         (Py.fmul (Py.fadd (uniform_21_24 s (drawn s)) (Py.float_of_int 55))
                  (Py.float_of_int 2))
       = Some (Py.int_of_byte b2)
    /\ 152 <= Py.int_of_byte b2 <= 158.
Proof.
  intros Hc Hd H21 H24 Hw.
  destruct (read_temperature_run m w s Hc Hd H21 H24 Hw)
    as (code & b & Hcode & Hrange & Hb & Hrun).
  exists zone, x00, b. rewrite Hrun, Hb. simpl.
  repeat split; try lia. exact Hcode.
Qed.

(** C10: the response to READ_ZONE_TEMP is one ZONE_TEMP frame, sent to
    the requesting client only, whose payload has three bytes: the first
    payload byte of the request, zero, and the byte whose value is
    [int((temp + 55) * 2)] for the temperature drawn.  The handler
    changes no attribute of the emulator. *)
Theorem zone_temp_response_layout m w s zone rest :
  cmd m = CMD_READ_ZONE_TEMP ->
  msg_data m = zone :: rest ->
  Py.fle (Py.float_of_int 21) (uniform_21_24 s (drawn s)) = true ->
  Py.fle (uniform_21_24 s (drawn s)) (Py.float_of_int 24) = true ->
  write_raises s w = false ->
  let s' := snd (process_command m w s) in
  (exists b,
     wire s' = wire s ++ [(w, encode_frame (Message ZONE_TEMP [zone; x00; b]))]
     /\ Py.int_of_float
          (Py.fmul (Py.fadd (uniform_21_24 s (drawn s)) (Py.float_of_int 55))
                   (Py.float_of_int 2))
        = Some (Py.int_of_byte b))
  /\ self s' = self s.
Proof.
  intros Hc Hd H21 H24 Hw s'. subst s'.
  destruct (read_temperature_run m w s Hc Hd H21 H24 Hw)
    as (code & b & Hcode & Hrange & Hb & Hrun).
  rewrite Hrun. simpl. split; [|reflexivity].
  exists b. rewrite Hb. split; [reflexivity | exact Hcode].
Qed.

End Temperature.

Lemma zone_temp_byte_is_truncated_witness :
  let lib := SpecLibrary.library in
  let s := calm (connected [1; 2]%nat) temp_21_375 in
  cmd read_zone_temp_3 = CMD_READ_ZONE_TEMP
  /\ msg_data read_zone_temp_3 = [x03]
  /\ Py.fle (Py.float_of_int 21) (uniform_21_24 s (drawn s)) = true
  /\ Py.fle (uniform_21_24 s (drawn s)) (Py.float_of_int 24) = true
  /\ write_raises s 1%nat = false
  /\ exists b0 b1 b2,
       wire (snd (process_command read_zone_temp_3 1%nat s))
       = wire s ++ [(1%nat, encode_frame (Message ZONE_TEMP [b0; b1; b2]))]
       /\ Py.int_of_float
            (Py.fmul (Py.fadd (uniform_21_24 s (drawn s)) (Py.float_of_int 55))
                     (Py.float_of_int 2))
          = Some (Py.int_of_byte b2)
       /\ 152 <= Py.int_of_byte b2 <= 158.
Proof.
  intros lib s.
  split; [reflexivity|]. split; [reflexivity|]. split; [reflexivity|].
  split; [reflexivity|]. split; [reflexivity|].
  apply (@zone_temp_byte_is_truncated lib read_zone_temp_3 1%nat s x03 []
           eq_refl eq_refl eq_refl eq_refl eq_refl).
Defined.

Lemma zone_temp_response_layout_witness :
  let lib := SpecLibrary.library in
  let s := calm (connected [1; 2]%nat) temp_21 in
  let s' := snd (process_command read_zone_temp_3 1%nat s) in
  cmd read_zone_temp_3 = CMD_READ_ZONE_TEMP
  /\ msg_data read_zone_temp_3 = [x03]
  /\ Py.fle (Py.float_of_int 21) (uniform_21_24 s (drawn s)) = true
  /\ Py.fle (uniform_21_24 s (drawn s)) (Py.float_of_int 24) = true
  /\ write_raises s 1%nat = false
  /\ (exists b,
        wire s' = wire s ++ [(1%nat, encode_frame (Message ZONE_TEMP [x03; x00; b]))]
        /\ Py.int_of_float
             (Py.fmul (Py.fadd (uniform_21_24 s (drawn s)) (Py.float_of_int 55))
                      (Py.float_of_int 2))
           = Some (Py.int_of_byte b))
  /\ self s' = self s.
Proof.
  intros lib s s'.
  split; [reflexivity|]. split; [reflexivity|]. split; [reflexivity|].
  split; [reflexivity|]. split; [reflexivity|].
  apply (@zone_temp_response_layout lib read_zone_temp_3 1%nat s x03 []
           eq_refl eq_refl eq_refl eq_refl eq_refl).
Defined.

(** C7, as stated, fails: when the draw is 21.375 = 171/8, an exact
    double, [(21.375 + 55) * 2] is 152.75; the byte sent is 152 where
    rounding gives 153. *)
Lemma zone_temp_byte_is_not_rounded :
  let lib := SpecLibrary.library in
  let s := calm (connected [1%nat]) temp_21_375 in
  Py.fle (Py.float_of_int 21) temp_21_375 = true
  /\ Py.fle temp_21_375 (Py.float_of_int 24) = true
  /\ Py.fmul (Py.fadd temp_21_375 (Py.float_of_int 55)) (Py.float_of_int 2)
     = S754_finite false (611 * 2 ^ 43) (-45)
  /\ rounded_temperature_code temp_21_375 = Some 153
  /\ temperature_code temp_21_375 = Some 152
  /\ Py.int_of_byte x98 = 152
  /\ wire (snd (process_command read_zone_temp_3 1%nat s))
     = [(1%nat, encode_frame (Message ZONE_TEMP [x03; x00; x98]))].
Proof. repeat split; reflexivity. Qed.

(* ================================================================= *)
(** ** The codec implementation and the scenarios of the description *)

Lemma decode_encode m :
  SpecLibrary.command_of_code (SpecLibrary.command_code (cmd m)) = cmd m ->
  SpecLibrary.decode (SpecLibrary.encode m) = Some m.
Proof.
  destruct m as [c d]. simpl. intros Hc.
  unfold SpecLibrary.encode, SpecLibrary.decode. simpl.
  rewrite length_app. simpl.
  replace (length d + 2 - 2)%nat with (length d + 0)%nat by lia.
  rewrite skipn_app, firstn_app, Nat.add_0_r.
  rewrite skipn_all, firstn_all. rewrite Nat.sub_diag. simpl.
  replace (length d + 2)%nat with (S (S (length d))) by lia.
  rewrite Hc, app_nil_r. reflexivity.
Qed.

Example decode_indices_5_20 :
  SpecLibrary.decode_indices (SpecLibrary.set_bits [5; 20] 4) 0 4 = Some [5; 20].
Proof. reflexivity. Qed.

Example encode_indices_out_of_range : SpecLibrary.encode_indices [33] 4 = None.
Proof. reflexivity. Qed.

Section Zones.
Context {lib : SatelLibrary}.

(** The zones are never assigned. *)
Lemma zones_never_change evs s : zones (self (run evs s)) = zones (self s).
Proof.
  unfold run. revert s. induction evs as [|ev evs IH]; intros s; simpl;
    [reflexivity|].
  rewrite IH. destruct ev as [w|w r]; simpl; [reflexivity|].
  destruct (mem w (clients (self s))); [|reflexivity].
  destruct (handle_client_step_device w r s) as (Hz & _ & _). rewrite Hz.
  destruct (received lib r); [apply effect_zones | reflexivity].
Qed.

End Zones.

(** In the scenarios clients 1 and 2 are connected to a fresh emulator
    and client 1 sends one frame.

    START_MONITORING: OK to the sender, then the empty output list and
    the empty ARMED_MODE0 list to everyone. *)
Example scenario_start_monitoring :
  let lib := SpecLibrary.library in
  let fresh := calm (connected [1; 2]%nat) temp_21 in
  wire (snd (process_command start_monitoring_frame 1%nat fresh))
  = [(1%nat, encode_frame RESPONSE_OK);
     (1%nat, encode_frame (Message_outputs OUTPUT_STATE []));
     (2%nat, encode_frame (Message_outputs OUTPUT_STATE []));
     (1%nat, encode_frame (Message_partitions ARMED_MODE0 []));
     (2%nat, encode_frame (Message_partitions ARMED_MODE0 []))].
Proof. reflexivity. Qed.

(** OUTPUT_ON for outputs 5 and 20: the broadcast lists [5, 20]. *)
Example scenario_output_on :
  let lib := SpecLibrary.library in
  let fresh := calm (connected [1; 2]%nat) temp_21 in
  let s := snd (process_command output_on_5_20 1%nat fresh) in
  Py.keys_where (fun st => st) (outputs (self s)) = [5; 20]
  /\ frames_to 2%nat (wire s)
     = map encode_frame [RESPONSE_OK; Message_outputs OUTPUT_STATE [5; 20]].
Proof. split; reflexivity. Qed.

(** An ARM command for partitions 1 and 3: both clients get the
    ARMED_MODE0 list [1, 3]; partitions 2 and 4 stay disarmed. *)
Example scenario_arm :
  let lib := SpecLibrary.library in
  let fresh := calm (connected [1; 2]%nat) temp_21 in
  let s := snd (process_command arm_mode_1_partitions_1_3 1%nat fresh) in
  partitions (self s)
  = [(1, AlarmState.ARMED_MODE0); (2, AlarmState.DISARMED);
     (3, AlarmState.ARMED_MODE0); (4, AlarmState.DISARMED)]
  /\ frames_to 2%nat (wire s)
     = map encode_frame [RESPONSE_OK; Message_partitions ARMED_MODE0 [1; 3]].
Proof. split; reflexivity. Qed.

(** The ends of the range: 21.0 gives 152 and 24.0 gives 158. *)
Example temperature_code_21 : temperature_code temp_21 = Some 152.
Proof. reflexivity. Qed.

Example temperature_code_24 :
  temperature_code (S754_finite false (24 * 2 ^ 48) (-48)) = Some 158.
Proof. reflexivity. Qed.

(** The addition rounds: for the double just below 21.5 the sum
    [temp + 55] is 76.5 exactly, and the code is 153 although
    [(temp + 55) * 2] is below 153 in exact arithmetic. *)
Example temperature_code_below_21_5 :
  let temp := S754_finite false (43 * 2 ^ 47 - 1) (-48) in
  Py.fadd temp (Py.float_of_int 55) = S754_finite false (153 * 2 ^ 45) (-46)
  /\ temperature_code temp = Some 153
  /\ (Z.pos (43 * 2 ^ 47 - 1) + 55 * 2 ^ 48) / 2 ^ 47 = 152.
Proof. repeat split; reflexivity. Qed.

(* ================================================================= *)
(** ** More on dictionaries: assignments that change nothing, and
       assignments to keys that are all there *)

Section DictMore.
Variable V : Type.
Implicit Types (d : Py.dict V) (k : Z) (v : V).

Lemma set_noop k v d : Py.get k d = Some v -> Py.set k v d = d.
Proof.
  induction d as [|[k' v'] r IH]; simpl; [discriminate|].
  destruct (Z.eqb_spec k k') as [->|Hne].
  - now intros [= ->].
  - intros H. now rewrite IH.
Qed.

Lemma set_all_noop ks v d :
  (forall k, In k ks -> Py.get k d = Some v) -> set_all ks v d = d.
Proof.
  unfold set_all. induction ks as [|k r IH]; intros H; simpl; [reflexivity|].
  rewrite set_noop by (apply H; now left).
  apply IH. intros k' Hk'. apply H. now right.
Qed.

Lemma set_all_twice ks v d : set_all ks v (set_all ks v d) = set_all ks v d.
Proof. apply set_all_noop. intros k Hk. now apply get_set_all_in. Qed.

Lemma get_in k v d : NoDup (Py.keys d) -> In (k, v) d -> Py.get k d = Some v.
Proof.
  unfold Py.keys. induction d as [|[k' v'] r IH]; simpl; [tauto|].
  intros Hnd [Heq|Hin].
  - injection Heq as -> ->. now rewrite Z.eqb_refl.
  - inversion Hnd as [|? ? Hk' Hr]; subst.
    destruct (Z.eqb_spec k k') as [->|Hne].
    + exfalso. apply Hk'. now apply (in_map fst) in Hin.
    + now apply IH.
Qed.

Lemma in_get k v d : Py.get k d = Some v -> In (k, v) d.
Proof.
  induction d as [|[k' v'] r IH]; simpl; [discriminate|].
  destruct (Z.eqb_spec k k') as [->|Hne].
  - intros [= ->]. now left.
  - intros H. right. now apply IH.
Qed.

Lemma overwrite_keys ks v d : Py.keys (overwrite ks v d) = Py.keys d.
Proof.
  unfold Py.keys, overwrite. rewrite map_map. apply map_ext.
  intros [k x]. simpl. now destruct (existsb (Z.eqb k) ks).
Qed.

Lemma set_present k v d :
  NoDup (Py.keys d) -> In k (Py.keys d) -> Py.set k v d = overwrite [k] v d.
Proof.
  unfold Py.keys, overwrite. induction d as [|[k' v'] r IH]; simpl; [tauto|].
  intros Hnd Hin. inversion Hnd as [|? ? Hk' Hr]; subst.
  destruct (Z.eqb_spec k k') as [->|Hne].
  - rewrite Z.eqb_refl. simpl. f_equal.
    rewrite <- (map_id r) at 1. apply map_ext_in.
    intros [k x] Hx. simpl.
    destruct (Z.eqb_spec k k') as [->|Hd]; [|reflexivity].
    exfalso. apply Hk'. now apply (in_map fst) in Hx.
  - destruct (Z.eqb_spec k' k) as [->|_]; [congruence|]. simpl.
    f_equal. apply IH; [exact Hr|]. destruct Hin as [Hin|Hin]; [congruence|exact Hin].
Qed.

(** Assigning to keys that are all present updates in place. *)
Lemma set_all_present ks v d :
  NoDup (Py.keys d) ->
  (forall k, In k ks -> In k (Py.keys d)) ->
  set_all ks v d = overwrite ks v d.
Proof.
  unfold set_all. revert d.
  induction ks as [|k r IH]; intros d Hnd Hin; simpl.
  - unfold overwrite. simpl. now rewrite map_id.
  - rewrite IH.
    + rewrite set_present by (try apply Hin; auto; now left).
      unfold overwrite. rewrite map_map. apply map_ext.
      intros [k' x]. simpl.
      destruct (k' =? k); simpl; [|reflexivity].
      now destruct (existsb (Z.eqb k') r).
    + rewrite keys_set_present; [exact Hnd | apply Hin; now left].
    + intros k' Hk'. apply keys_set. right. apply Hin. now right.
Qed.

(** Assigning [v0] to keys that held [v0] before another assignment
    gives the dictionary back. *)
Lemma set_all_undo ks v v0 d :
  NoDup (Py.keys d) ->
  (forall k, In k ks -> Py.get k d = Some v0) ->
  set_all ks v0 (set_all ks v d) = d.
Proof.
  intros Hnd Hks.
  assert (Hin : forall k, In k ks -> In k (Py.keys d)).
  { intros k Hk. pose proof (in_get k d (Hks k Hk)) as Hkv.
    now apply (in_map fst) in Hkv. }
  rewrite (@set_all_present ks v d Hnd Hin).
  rewrite set_all_present.
  - unfold overwrite. rewrite map_map. rewrite <- (map_id d) at 2.
    apply map_ext_in. intros [k x] Hx. simpl.
    destruct (existsb (Z.eqb k) ks) eqn:E; simpl; rewrite E; [|reflexivity].
    apply existsb_exists in E. destruct E as [k' [Hk' Ek]].
    apply Z.eqb_eq in Ek. subst k'.
    pose proof (@get_in k x d Hnd Hx) as G. rewrite (Hks k Hk') in G.
    now injection G as ->.
  - now rewrite overwrite_keys.
  - intros k Hk. rewrite overwrite_keys. now apply Hin.
Qed.

Lemma set_all_keeps_NoDup ks v d :
  NoDup (Py.keys d) -> NoDup (Py.keys (set_all ks v d)).
Proof.
  unfold set_all. revert d. induction ks as [|k r IH]; intros d Hnd; simpl;
    [exact Hnd|].
  apply IH. clear IH. unfold Py.keys in *.
  induction d as [|[k' v'] d' IHd]; simpl.
  - constructor; [tauto | constructor].
  - inversion Hnd as [|? ? Hk' Hr]; subst.
    destruct (Z.eqb_spec k k') as [->|Hne]; simpl.
    + now constructor.
    + constructor; [|now apply IHd].
      intros Hin. apply (keys_set k' k v d') in Hin.
      destruct Hin as [Heq|Hin]; [congruence | contradiction].
Qed.

End DictMore.

(* ================================================================= *)
(** ** DISARM, OUTPUT_ON and OUTPUT_OFF on any selection *)

Section Selections.
Context {lib : SatelLibrary}.

(** X1: a DISARM command whose bitmask decodes sets every addressed
    partition to DISARMED and leaves every other partition, the
    outputs, the zones and the client set as they were. *)
Theorem disarm_clears_selection m w s parts :
  cmd m = CMD_DISARM ->
  list_set_bits m 8 4 = Some parts ->
  let e := self s in
  let e' := self (snd (process_command m w s)) in
  (forall p, Py.get p (partitions e')
             = if existsb (Z.eqb p) parts then Some AlarmState.DISARMED
               else Py.get p (partitions e))
  /\ outputs e' = outputs e
  /\ zones e' = zones e
  /\ clients e' = clients e.
Proof.
  intros Hc Hl e e'. subst e e'. rewrite process_command_self.
  unfold effect. rewrite Hc, Hl. simpl.
  repeat split. intros p. apply get_set_all.
Qed.

(** X2: an OUTPUT_ON command whose bitmask decodes sets every
    addressed output to on ([True]), an OUTPUT_OFF command sets every
    addressed output to off ([False]); either leaves every other
    output, the partitions, the zones and the client set as they
    were. *)
Theorem set_output_selection m w s outs state :
  (cmd m = CMD_OUTPUT_ON /\ state = true)
  \/ (cmd m = CMD_OUTPUT_OFF /\ state = false) ->
  list_set_bits m 8 32 = Some outs ->
  let e := self s in
  let e' := self (snd (process_command m w s)) in
  (forall i, Py.get i (outputs e')
             = if existsb (Z.eqb i) outs then Some state
               else Py.get i (outputs e))
  /\ partitions e' = partitions e
  /\ zones e' = zones e
  /\ clients e' = clients e.
Proof.
  intros Hc Hl e e'. subst e e'. rewrite process_command_self.
  unfold effect. rewrite Hl.
  destruct Hc as [[Hc ->]|[Hc ->]]; rewrite Hc; simpl;
    repeat split; intros i; apply get_set_all.
Qed.

Lemma effect_twice m e : effect lib m (effect lib m e) = effect lib m e.
Proof.
  unfold effect.
  destruct (is_arm (cmd m)).
  { destruct (list_set_bits m 8 4); [|reflexivity]. simpl. now rewrite set_all_twice. }
  destruct (is_disarm (cmd m)).
  { destruct (list_set_bits m 8 4); [|reflexivity]. simpl. now rewrite set_all_twice. }
  destruct (is_set_output (cmd m)); [|reflexivity].
  destruct (list_set_bits m 8 32); [|reflexivity]. simpl. now rewrite set_all_twice.
Qed.

(** X3: a command received a second time, from any client, leaves the
    attributes of the emulator as the first one left them: arming an
    armed partition, disarming a disarmed one or switching an output to
    the state it has changes nothing. *)
Theorem repeated_command_changes_nothing m w w' s :
  let s1 := snd (process_command m w s) in
  self (snd (process_command m w' s1)) = self s1.
Proof.
  intros s1. subst s1. rewrite !process_command_self. apply effect_twice.
Qed.

(** X4: an ARM command followed by a DISARM command with the same
    selection gives back the partition map, and with it the whole
    emulator, when the selected partitions were disarmed before. *)
Theorem disarm_undoes_arm ma md w w' s parts :
  is_arm (cmd ma) = true ->
  cmd md = CMD_DISARM ->
  list_set_bits ma 8 4 = Some parts ->
  list_set_bits md 8 4 = Some parts ->
  NoDup (Py.keys (partitions (self s))) ->
  (forall p, In p parts ->
             Py.get p (partitions (self s)) = Some AlarmState.DISARMED) ->
  self (snd (process_command md w' (snd (process_command ma w s)))) = self s.
Proof.
  intros Ha Hd Hla Hld Hnd Hp. rewrite !process_command_self.
  unfold effect at 1. rewrite Hd, Hld. simpl.
  unfold effect. rewrite Ha, Hla. simpl.
  rewrite set_all_undo by assumption. now destruct (self s).
Qed.

(** X5: an OUTPUT_ON command followed by an OUTPUT_OFF command with
    the same selection gives back the output map, and with it the whole
    emulator, when the selected outputs were off before. *)
Theorem output_off_undoes_output_on mon moff w w' s outs :
  cmd mon = CMD_OUTPUT_ON ->
  cmd moff = CMD_OUTPUT_OFF ->
  list_set_bits mon 8 32 = Some outs ->
  list_set_bits moff 8 32 = Some outs ->
  NoDup (Py.keys (outputs (self s))) ->
  (forall i, In i outs -> Py.get i (outputs (self s)) = Some false) ->
  self (snd (process_command moff w' (snd (process_command mon w s)))) = self s.
Proof.
  intros Hon Hoff Hl1 Hl2 Hnd Hp. rewrite !process_command_self.
  unfold effect at 1. rewrite Hoff, Hl2. simpl.
  unfold effect. rewrite Hon, Hl1. simpl.
  rewrite set_all_undo by assumption. now destruct (self s).
Qed.

Lemma keys_where_get (V : Type) (p : V -> bool) (d : Py.dict V) k :
  NoDup (Py.keys d) ->
  In k (Py.keys_where p d) <-> exists v, Py.get k d = Some v /\ p v = true.
Proof.
  intros Hnd. unfold Py.keys_where. rewrite in_map_iff. split.
  - intros [[k' v] [Hk Hin]]. simpl in Hk. subst k'.
    apply filter_In in Hin. destruct Hin as [Hin Hp]. simpl in Hp.
    exists v. split; [now apply get_in | exact Hp].
  - intros [v [Hg Hp]]. exists (k, v). split; [reflexivity|].
    apply filter_In. split; [now apply in_get | exact Hp].
Qed.

Lemma existsb_In i (l : list Z) : existsb (Z.eqb i) l = true <-> In i l.
Proof.
  rewrite existsb_exists. split.
  - intros [x [Hx Ex]]. apply Z.eqb_eq in Ex. now subst.
  - intros H. exists i. split; [exact H | apply Z.eqb_refl].
Qed.

(** The outputs that are on after [for output in outs:
    self.outputs[output] = state]. *)
Lemma enabled_after_set_all (d : Py.dict bool) outs state i :
  NoDup (Py.keys d) ->
  In i (Py.keys_where (fun st : bool => st) (set_all outs state d))
  <-> if state
      then In i outs \/ In i (Py.keys_where (fun st : bool => st) d)
      else In i (Py.keys_where (fun st : bool => st) d) /\ ~ In i outs.
Proof.
  intros Hnd.
  pose proof (@keys_where_get bool (fun st => st) d i Hnd) as Hold.
  pose proof (@keys_where_get bool (fun st => st) (set_all outs state d) i
                (@set_all_keeps_NoDup bool outs _ _ Hnd)) as Hnew.
  cbv beta in Hold, Hnew. rewrite Hnew. clear Hnew. setoid_rewrite get_set_all.
  destruct (existsb (Z.eqb i) outs) eqn:E.
  - assert (Hin : In i outs) by (now apply existsb_In).
    destruct state; split.
    + intros _. now left.
    + intros _. exists true. now split.
    + intros [v [[= <-] Hv]]. discriminate.
    + intros [_ Hn]. contradiction.
  - assert (Hout : ~ In i outs) by (intros H; apply existsb_In in H; congruence).
    rewrite <- Hold.
    destruct state; split.
    + intros H. now right.
    + intros [H|H]; [contradiction | exact H].
    + intros H. now split.
    + intros [H _]. exact H.
Qed.

(** X6: what [set_output] writes when no write raises: the OK frame to
    every client, then to every client the OUTPUT_STATE frame of a list
    of outputs which, after OUTPUT_ON, holds the selected outputs and
    those that were enabled and, after OUTPUT_OFF, holds the outputs
    that were enabled and are not selected. *)
Theorem enabled_outputs_after_set_output m w s outs :
  cmd m = CMD_OUTPUT_ON \/ cmd m = CMD_OUTPUT_OFF ->
  list_set_bits m 8 32 = Some outs ->
  NoDup (Py.keys (outputs (self s))) ->
  (forall c, In c (clients (self s)) -> write_raises s c = false) ->
  let enabled := Py.keys_where (fun state : bool => state) (outputs (self s)) in
  exists broadcast,
    wire (snd (process_command m w s))
    = wire s
      ++ map (fun c => (c, encode_frame RESPONSE_OK)) (clients (self s))
      ++ map (fun c => (c, encode_frame (Message_outputs OUTPUT_STATE broadcast)))
             (clients (self s))
    /\ (cmd m = CMD_OUTPUT_ON ->
        forall i, In i broadcast <-> In i outs \/ In i enabled)
    /\ (cmd m = CMD_OUTPUT_OFF ->
        forall i, In i broadcast <-> In i enabled /\ ~ In i outs).
Proof.
  intros Hc Hl Hnd Hq enabled. subst enabled.
  assert (Hm : is_mutating (cmd m) = true /\ selection lib m = Some outs).
  { unfold selection. destruct Hc as [Hc|Hc]; rewrite Hc; now split. }
  destruct Hm as [Hm Hs].
  exists (Py.keys_where (fun state : bool => state)
            (set_all outs (is_CMD_OUTPUT_ON (cmd m)) (outputs (self s)))).
  split.
  - rewrite (mutating_success_wire m w s Hm (mutating_returns m w s Hm Hs Hq)).
    unfold snapshot, effect. rewrite Hl.
    destruct Hc as [Hc|Hc]; rewrite Hc; reflexivity.
  - split; intros Hc'; rewrite Hc'; simpl; intros i;
      now rewrite enabled_after_set_all.
Qed.

End Selections.

(** The keys of a concrete dictionary are distinct. *)
Ltac distinct_keys :=
  repeat (constructor; [intros H; simpl in H; lia|]); constructor.

Lemma disarm_clears_selection_witness :
  let lib := SpecLibrary.library in
  let s := snd (process_command arm_mode_1_partitions_1_3 1%nat
                  (calm (connected [1; 2]%nat) temp_21)) in
  let e := self s in
  let e' := self (snd (process_command disarm_partitions_1_3 2%nat s)) in
  cmd disarm_partitions_1_3 = CMD_DISARM
  /\ list_set_bits disarm_partitions_1_3 8 4 = Some [1; 3]
  /\ partitions e' = partitions init
  /\ (forall p, Py.get p (partitions e')
                = if existsb (Z.eqb p) [1; 3] then Some AlarmState.DISARMED
                  else Py.get p (partitions e))
  /\ outputs e' = outputs e
  /\ zones e' = zones e
  /\ clients e' = clients e.
Proof.
  intros lib s e e'.
  split; [reflexivity|]. split; [reflexivity|]. split; [reflexivity|].
  apply (@disarm_clears_selection lib disarm_partitions_1_3 2%nat s [1; 3]
           eq_refl eq_refl).
Defined.

Lemma set_output_selection_witness :
  let lib := SpecLibrary.library in
  let s := snd (process_command output_on_5_20 1%nat
                  (calm (connected [1; 2]%nat) temp_21)) in
  let e := self s in
  let e' := self (snd (process_command output_off_5 2%nat s)) in
  ((cmd output_off_5 = CMD_OUTPUT_ON /\ false = true)
   \/ (cmd output_off_5 = CMD_OUTPUT_OFF /\ false = false))
  /\ list_set_bits output_off_5 8 32 = Some [5]
  /\ Py.get 5 (outputs e) = Some true
  /\ (forall i, Py.get i (outputs e')
                = if existsb (Z.eqb i) [5] then Some false
                  else Py.get i (outputs e))
  /\ partitions e' = partitions e
  /\ zones e' = zones e
  /\ clients e' = clients e.
Proof.
  intros lib s e e'.
  assert (H : (cmd output_off_5 = CMD_OUTPUT_ON /\ false = true)
              \/ (cmd output_off_5 = CMD_OUTPUT_OFF /\ false = false))
    by (right; split; reflexivity).
  split; [exact H|]. split; [reflexivity|]. split; [reflexivity|].
  apply (@set_output_selection lib output_off_5 2%nat s [5] false H eq_refl).
Defined.

Lemma disarm_undoes_arm_witness :
  let lib := SpecLibrary.library in
  let s := calm (connected [1; 2]%nat) temp_21 in
  is_arm (cmd arm_mode_1_partitions_1_3) = true
  /\ cmd disarm_partitions_1_3 = CMD_DISARM
  /\ list_set_bits arm_mode_1_partitions_1_3 8 4 = Some [1; 3]
  /\ list_set_bits disarm_partitions_1_3 8 4 = Some [1; 3]
  /\ NoDup (Py.keys (partitions (self s)))
  /\ (forall p, In p [1; 3] ->
                Py.get p (partitions (self s)) = Some AlarmState.DISARMED)
  /\ self (snd (process_command disarm_partitions_1_3 2%nat
                  (snd (process_command arm_mode_1_partitions_1_3 1%nat s))))
     = self s.
Proof.
  intros lib s.
  assert (Hnd : NoDup (Py.keys (partitions (self s)))) by (simpl; distinct_keys).
  assert (Hp : forall p, In p [1; 3] ->
                 Py.get p (partitions (self s)) = Some AlarmState.DISARMED).
  { intros p [<-|[<-|[]]]; reflexivity. }
  split; [reflexivity|]. split; [reflexivity|]. split; [reflexivity|].
  split; [reflexivity|]. split; [exact Hnd|]. split; [exact Hp|].
  apply (@disarm_undoes_arm lib arm_mode_1_partitions_1_3 disarm_partitions_1_3
           1%nat 2%nat s [1; 3] eq_refl eq_refl eq_refl eq_refl Hnd Hp).
Defined.

Lemma output_off_undoes_output_on_witness :
  let lib := SpecLibrary.library in
  let s := calm (connected [1; 2]%nat) temp_21 in
  cmd output_on_5_20 = CMD_OUTPUT_ON
  /\ cmd output_off_5_20 = CMD_OUTPUT_OFF
  /\ list_set_bits output_on_5_20 8 32 = Some [5; 20]
  /\ list_set_bits output_off_5_20 8 32 = Some [5; 20]
  /\ NoDup (Py.keys (outputs (self s)))
  /\ (forall i, In i [5; 20] -> Py.get i (outputs (self s)) = Some false)
  /\ self (snd (process_command output_off_5_20 2%nat
                  (snd (process_command output_on_5_20 1%nat s))))
     = self s.
Proof.
  intros lib s.
  assert (Hnd : NoDup (Py.keys (outputs (self s)))) by (simpl; distinct_keys).
  assert (Hp : forall i, In i [5; 20] -> Py.get i (outputs (self s)) = Some false).
  { intros p [<-|[<-|[]]]; reflexivity. }
  split; [reflexivity|]. split; [reflexivity|]. split; [reflexivity|].
  split; [reflexivity|]. split; [exact Hnd|]. split; [exact Hp|].
  apply (@output_off_undoes_output_on lib output_on_5_20 output_off_5_20
           1%nat 2%nat s [5; 20] eq_refl eq_refl eq_refl eq_refl Hnd Hp).
Defined.

(** Outputs 5 and 20 are on; OUTPUT_OFF for output 5 is received. *)
Lemma enabled_outputs_after_set_output_witness :
  let lib := SpecLibrary.library in
  let s := snd (process_command output_on_5_20 1%nat
                  (calm (connected [1; 2]%nat) temp_21)) in
  let enabled := Py.keys_where (fun state : bool => state) (outputs (self s)) in
  (cmd output_off_5 = CMD_OUTPUT_ON \/ cmd output_off_5 = CMD_OUTPUT_OFF)
  /\ list_set_bits output_off_5 8 32 = Some [5]
  /\ NoDup (Py.keys (outputs (self s)))
  /\ (forall c, In c (clients (self s)) -> write_raises s c = false)
  /\ enabled = [5; 20]
  /\ exists broadcast,
       wire (snd (process_command output_off_5 2%nat s))
       = wire s
         ++ map (fun c => (c, encode_frame RESPONSE_OK)) (clients (self s))
         ++ map (fun c => (c, encode_frame (Message_outputs OUTPUT_STATE broadcast)))
                (clients (self s))
       /\ (cmd output_off_5 = CMD_OUTPUT_ON ->
           forall i, In i broadcast <-> In i [5] \/ In i enabled)
       /\ (cmd output_off_5 = CMD_OUTPUT_OFF ->
           forall i, In i broadcast <-> In i enabled /\ ~ In i [5]).
Proof.
  intros lib s enabled.
  assert (Hnd : NoDup (Py.keys (outputs (self s)))) by (simpl; distinct_keys).
  assert (Hq : forall c, In c (clients (self s)) -> write_raises s c = false)
    by (intros c _; reflexivity).
  split; [now right|]. split; [reflexivity|]. split; [exact Hnd|].
  split; [exact Hq|]. split; [reflexivity|].
  apply (@enabled_outputs_after_set_output lib output_off_5 2%nat s [5]
           (or_intror eq_refl) eq_refl Hnd Hq).
Defined.

(* ================================================================= *)
(** ** START_MONITORING, DEVICE_INFO and the commands without a branch *)

Section Responses.
Context {lib : SatelLibrary}.

(** X7: DEVICE_INFO is answered with the fixed device description,
    written to the requesting client and to nobody else, whatever the
    payload of the request; if that one write raises nothing is
    written.  No attribute of the emulator changes. *)
Theorem device_info_response data w s :
  let s' := snd (process_command (Message DEVICE_INFO data) w s) in
  self s' = self s
  /\ wire s' = wire s ++ (if write_raises s w then []
                          else [(w, encode_frame RESPONSE_DEVICE_INFO)]).
Proof.
  intros s'. subst s'. split.
  - rewrite process_command_self. reflexivity.
  - rewrite process_command_wire. unfold dispatch, device_info. simpl.
    rewrite send_response_run. unfold after_send. simpl.
    now destruct (write_raises s w).
Qed.

(** X8: START_MONITORING changes no attribute of the emulator; when no
    write raises it puts on the wire the OK frame for the requesting
    client alone, then the list of enabled outputs for every client,
    then the list of the partitions in ARMED_MODE0 for every client. *)
Theorem start_monitoring_response data w s :
  write_raises s w = false ->
  (forall c, In c (clients (self s)) -> write_raises s c = false) ->
  let s' := snd (process_command (Message CMD_START_MONITORING data) w s) in
  let e := self s in
  self s' = e
  /\ wire s'
     = wire s
       ++ [(w, encode_frame RESPONSE_OK)]
       ++ map (fun c => (c, encode_frame
                              (Message_outputs OUTPUT_STATE
                                 (Py.keys_where (fun state => state) (outputs e)))))
              (clients e)
       ++ map (fun c => (c, encode_frame
                              (Message_partitions ARMED_MODE0
                                 (Py.keys_where
                                    (fun st => AlarmState.eqb st AlarmState.ARMED_MODE0)
                                    (partitions e)))))
              (clients e).
Proof.
  intros Hw Hc s' e. subst s' e. split.
  - rewrite process_command_self. reflexivity.
  - destruct (no_raising_client (write_raises s) (clients (self s)) Hc) as [F R].
    rewrite process_command_wire.
    unfold dispatch, start_monitoring. simpl.
    unfold bind at 1. rewrite send_response_run. simpl. rewrite Hw.
    unfold bind at 1, broadcast_outputs.
    unfold bind at 1, get_self. rewrite send_response_run. simpl. rewrite F.
    unfold broadcast_partitions. simpl.
    unfold bind at 1. unfold bind at 1, get_self, ret.
    rewrite send_response_run. simpl. rewrite ?R, ?Hw. simpl.
    now rewrite <- !app_assoc.
Qed.

(** X9: a frame whose command has no branch in [process_command]
    (RESULT, ZONE_TEMP, OUTPUT_STATE, the ARMED_MODE broadcasts, any
    other code) is logged as unknown and ignored: nothing is written,
    no attribute changes, the connection stays registered and open and
    its loop goes on. *)
Theorem unknown_command_is_ignored w r m s :
  received lib r = Some m ->
  is_handled (cmd m) = false ->
  handle_client_step w r s
  = (Return true,
     with_logged s (logged s ++ [debug_received w m;
                                 warning_unknown_command (cmd m)])).
Proof.
  intros Hr Hh. rewrite (handle_client_step_go w r s Hr).
  destruct m as [c d]. unfold process_command, try_except, dispatch, logger.
  destruct c; simpl in *; try discriminate;
    unfold with_logged; simpl; now rewrite <- app_assoc.
Qed.

(** X10: [broadcast_partitions] looks its command up in
    [ALARMSTATE_TO_CMD]: for DISARMED there is no entry, the lookup
    raises and nothing is written; for an armed state, when no write
    raises, every client is written the list of the partitions in that
    state, in the order of the partition map. *)
Theorem broadcast_partitions_by_state st s :
  (forall c, In c (clients (self s)) -> write_raises s c = false) ->
  match ALARMSTATE_TO_CMD st with
  | None =>
      st = AlarmState.DISARMED
      /\ broadcast_partitions st s = (Raise KeyError, s)
  | Some c =>
      fst (broadcast_partitions st s) = Return tt
      /\ wire (snd (broadcast_partitions st s))
         = wire s
           ++ map (fun x => (x, encode_frame
                                  (Message_partitions c
                                     (Py.keys_where (fun ps => AlarmState.eqb ps st)
                                                    (partitions (self s))))))
                  (clients (self s))
  end.
Proof.
  intros Hc.
  destruct (no_raising_client (write_raises s) (clients (self s)) Hc) as [F R].
  unfold broadcast_partitions.
  destruct st; simpl; try (split; reflexivity);
    unfold bind, get_self, ret; simpl;
    rewrite send_response_run; unfold after_send; simpl; rewrite ?F, ?R;
    now split.
Qed.

End Responses.

Lemma start_monitoring_response_witness :
  let lib := SpecLibrary.library in
  let s := snd (process_command output_on_5_20 1%nat
                  (snd (process_command arm_mode_1_partitions_1_3 1%nat
                          (calm (connected [1; 2]%nat) temp_21)))) in
  let s' := snd (process_command (Message CMD_START_MONITORING []) 2%nat s) in
  let e := self s in
  write_raises s 2%nat = false
  /\ (forall c, In c (clients (self s)) -> write_raises s c = false)
  /\ frames_to 2%nat (skipn (length (wire s)) (wire s'))
     = map encode_frame [RESPONSE_OK; Message_outputs OUTPUT_STATE [5; 20];
                         Message_partitions ARMED_MODE0 [1; 3]]
  /\ self s' = e
  /\ wire s'
     = wire s
       ++ [(2%nat, encode_frame RESPONSE_OK)]
       ++ map (fun c => (c, encode_frame
                              (Message_outputs OUTPUT_STATE
                                 (Py.keys_where (fun state => state) (outputs e)))))
              (clients e)
       ++ map (fun c => (c, encode_frame
                              (Message_partitions ARMED_MODE0
                                 (Py.keys_where
                                    (fun st => AlarmState.eqb st AlarmState.ARMED_MODE0)
                                    (partitions e)))))
              (clients e).
Proof.
  intros lib s s' e.
  assert (Hc : forall c, In c (clients (self s)) -> write_raises s c = false)
    by (intros c _; reflexivity).
  split; [reflexivity|]. split; [exact Hc|]. split; [reflexivity|].
  apply (@start_monitoring_response lib [] 2%nat s eq_refl Hc).
Defined.

Lemma unknown_command_is_ignored_witness :
  let lib := SpecLibrary.library in
  let r := Data (encode_frame unknown_frame) in
  let s := calm (connected [1; 2]%nat) temp_21 in
  received lib r = Some unknown_frame
  /\ is_handled (cmd unknown_frame) = false
  /\ handle_client_step 1%nat r s
     = (Return true,
        with_logged s (logged s ++ [debug_received 1%nat unknown_frame;
                                    warning_unknown_command (cmd unknown_frame)])).
Proof.
  intros lib r s.
  split; [reflexivity|]. split; [reflexivity|].
  apply (@unknown_command_is_ignored lib 1%nat r unknown_frame s eq_refl eq_refl).
Defined.

Lemma broadcast_partitions_by_state_witness :
  let lib := SpecLibrary.library in
  let s := snd (process_command arm_mode_1_partitions_1_3 1%nat
                  (calm (connected [1; 2]%nat) temp_21)) in
  (forall c, In c (clients (self s)) -> write_raises s c = false)
  /\ broadcast_partitions AlarmState.DISARMED s = (Raise KeyError, s)
  /\ match ALARMSTATE_TO_CMD AlarmState.ARMED_MODE0 with
     | None =>
         AlarmState.ARMED_MODE0 = AlarmState.DISARMED
         /\ broadcast_partitions AlarmState.ARMED_MODE0 s = (Raise KeyError, s)
     | Some c =>
         fst (broadcast_partitions AlarmState.ARMED_MODE0 s) = Return tt
         /\ wire (snd (broadcast_partitions AlarmState.ARMED_MODE0 s))
            = wire s
              ++ map (fun x => (x, encode_frame
                                     (Message_partitions c
                                        (Py.keys_where
                                           (fun ps => AlarmState.eqb ps AlarmState.ARMED_MODE0)
                                           (partitions (self s))))))
                     (clients (self s))
     end.
Proof.
  intros lib s.
  assert (Hc : forall c, In c (clients (self s)) -> write_raises s c = false)
    by (intros c _; reflexivity).
  split; [exact Hc|]. split; [reflexivity|].
  apply (@broadcast_partitions_by_state lib AlarmState.ARMED_MODE0 s Hc).
Defined.

(* ================================================================= *)
(** ** Who is written to *)

Section Steady.
Variable R : World -> World -> Prop.
Hypothesis R_refl : forall s, R s s.
Hypothesis R_trans : forall s1 s2 s3, R s1 s2 -> R s2 s3 -> R s1 s3.

Lemma steady_ret A (a : A) : steady R (ret a).
Proof. intros s. apply R_refl. Qed.

Lemma steady_raise A e : steady R (@raise A e).
Proof. intros s. apply R_refl. Qed.

Lemma steady_or_raise A (o : option A) e : steady R (or_raise o e).
Proof. destruct o; [apply steady_ret | apply steady_raise]. Qed.

Lemma steady_get_self : steady R get_self.
Proof. intros s. apply R_refl. Qed.

Lemma steady_bind A B (c : M A) (k : A -> M B) :
  steady R c -> (forall a, steady R (k a)) -> steady R (bind c k).
Proof.
  intros Hc Hk s. unfold bind. specialize (Hc s).
  destruct (c s) as [[a|e] s1]; simpl in *; [|exact Hc].
  eapply R_trans; [exact Hc | apply Hk].
Qed.

Lemma steady_try_except A (c : M A) h :
  steady R c -> (forall e, steady R (h e)) -> steady R (try_except c h).
Proof.
  intros Hc Hh s. unfold try_except. specialize (Hc s).
  destruct (c s) as [[a|e] s1]; simpl in *; [exact Hc|].
  eapply R_trans; [exact Hc | apply Hh].
Qed.

Lemma steady_for_each A (l : list A) body :
  (forall x, steady R (body x)) -> steady R (for_each l body).
Proof.
  intros Hb. induction l as [|x r IH]; simpl.
  - apply steady_ret.
  - apply steady_bind; [apply Hb | intros _; exact IH].
Qed.

End Steady.

Section Delivered.
Context {lib : SatelLibrary}.
Variable w : Writer.

Lemma delivery_refl s : delivery w s s.
Proof.
  split; [reflexivity|]. exists []. split; [now rewrite app_nil_r | constructor].
Qed.

Lemma delivery_trans s1 s2 s3 :
  delivery w s1 s2 -> delivery w s2 s3 -> delivery w s1 s3.
Proof.
  intros [C1 (l1 & W1 & F1)] [C2 (l2 & W2 & F2)]. split; [congruence|].
  exists (l1 ++ l2). split.
  - now rewrite W2, W1, app_assoc.
  - apply Forall_app. split; [exact F1|]. now rewrite C1 in F2.
Qed.

(** A computation that leaves the wire and the client set alone. *)
Lemma silent_delivery A (c : M A) :
  keeps wire c -> keeps (fun s => clients (self s)) c -> steady (delivery w) c.
Proof.
  intros Hw Hc s. split; [apply Hc|].
  exists []. split; [now rewrite Hw, app_nil_r | constructor].
Qed.

Lemma reached_incl raises (l : list Writer) c : In c (reached raises l) -> In c l.
Proof.
  induction l as [|x r IH]; simpl; [tauto|].
  destruct (raises x); simpl; [tauto|]. intros [H|H]; [now left | right; auto].
Qed.

Lemma send_response_delivery message target :
  target = None \/ target = Some w ->
  steady (delivery w) (send_response message target).
Proof.
  intros Ht s. rewrite send_response_run. unfold after_send. simpl.
  split; [reflexivity|]. eexists. split; [reflexivity|].
  apply Forall_forall. intros [c f] Hin. apply in_map_iff in Hin.
  destruct Hin as [c' [[= <- <-] Hc]]. apply reached_incl in Hc. simpl.
  destruct Ht as [->| ->]; [now right|].
  destruct Hc as [<-|[]]. now left.
Qed.

Lemma setitem_partitions_delivery k v : steady (delivery w) (partitions_setitem k v).
Proof. apply silent_delivery; intros s; reflexivity. Qed.

Lemma setitem_outputs_delivery k v : steady (delivery w) (outputs_setitem k v).
Proof. apply silent_delivery; intros s; reflexivity. Qed.

Lemma logger_delivery r : steady (delivery w) (logger r).
Proof. apply silent_delivery; intros s; reflexivity. Qed.

Lemma draw_delivery : steady (delivery w) random_uniform_21_24.
Proof. apply silent_delivery; intros s; reflexivity. Qed.

Ltac delivered :=
  repeat first
    [ apply send_response_delivery; auto
    | apply setitem_partitions_delivery
    | apply setitem_outputs_delivery
    | apply logger_delivery
    | apply draw_delivery
    | apply (@steady_ret _ delivery_refl)
    | apply (@steady_get_self _ delivery_refl)
    | apply (@steady_or_raise _ delivery_refl)
    | apply (@steady_bind _ delivery_trans); [|intros ?]
    | apply (@steady_try_except _ delivery_trans); [|intros ?]
    | apply (@steady_for_each _ delivery_refl delivery_trans); intros ? ].

Lemma process_command_delivery m : steady (delivery w) (process_command m w).
Proof.
  destruct m as [c d].
  unfold process_command, dispatch, start_monitoring, device_info, arm, disarm,
    set_output, read_temperature, broadcast_outputs, broadcast_partitions.
  destruct c; simpl; delivered.
Qed.

End Delivered.

Section Unregistered.
Context {lib : SatelLibrary}.

(** X11: whatever the command and whatever fails, [process_command]
    only appends to what was written before, and every frame it
    appends is addressed to the requesting client or to a client that
    is registered; the client set itself is not touched. *)
Theorem frames_go_to_registered_clients m w s :
  let s' := snd (process_command m w s) in
  clients (self s') = clients (self s)
  /\ exists l, wire s' = wire s ++ l
               /\ Forall (fun x => fst x = w \/ In (fst x) (clients (self s))) l.
Proof. exact (process_command_delivery w m s). Qed.

Lemma mem_true (x : Writer) l : mem x l = true -> In x l.
Proof.
  unfold mem. intros H. apply existsb_exists in H.
  destruct H as [y [Hy E]]. apply Nat.eqb_eq in E. now subst.
Qed.

Lemma frames_to_app x a b : frames_to x (a ++ b) = frames_to x a ++ frames_to x b.
Proof. unfold frames_to. now rewrite filter_app, map_app. Qed.

Lemma frames_to_others x (l : list (Writer * list byte)) :
  Forall (fun y => fst y <> x) l -> frames_to x l = [].
Proof.
  unfold frames_to. induction l as [|[c f] r IH]; simpl; [reflexivity|].
  intros H. inversion H as [|? ? Hc Hr]; subst. simpl in Hc.
  destruct (Nat.eqb_spec c x); [contradiction | now apply IH].
Qed.

Lemma serve_unregistered s ev x :
  ~ In x (clients (self s)) -> ev <> Accept x ->
  frames_to x (wire (serve s ev)) = frames_to x (wire s)
  /\ ~ In x (clients (self (serve s ev))).
Proof.
  intros Hx Hev. destruct ev as [c|c r]; simpl.
  - split; [reflexivity|]. destruct (mem c (clients (self s))); [exact Hx|].
    rewrite in_app_iff. simpl. intros [H|[H|[]]]; [contradiction|].
    apply Hev. now subst.
  - destruct (mem c (clients (self s))) eqn:Hc; [|now split].
    apply mem_true in Hc.
    destruct (received lib r) as [m|] eqn:Hr.
    + rewrite (handle_client_step_go c r s Hr). simpl snd.
      destruct (process_command_delivery c m
                  (with_logged s (logged s ++ [debug_received c m])))
        as [Hcl (l & Hw & Hl)].
      simpl in Hcl, Hw, Hl. unfold logger. simpl snd. rewrite Hcl, Hw. split; [|exact Hx].
      assert (Ho : Forall (fun y => fst y <> x) l).
      { apply Forall_forall. intros y Hy.
        rewrite Forall_forall in Hl. specialize (Hl y Hy).
        intros Heq. destruct Hl as [H|H]; [|now rewrite Heq in H].
        apply Hx. now rewrite <- Heq, H. }
      now rewrite frames_to_app, (frames_to_others Ho), app_nil_r.
    + rewrite (handle_client_step_stop c r s Hr).
      unfold bind, handle_client_finally, clients_remove, bind, get_self.
      destruct (mem c (clients (self s))); simpl; [|now split].
      split; [reflexivity|]. rewrite filter_In. tauto.
Qed.

(** X12: over any sequence of connections and reads, a writer that is
    not registered and is not accepted (a client that never connected,
    or one whose connection was torn down) is never written to and
    never becomes registered. *)
Theorem unregistered_writer_gets_nothing evs s x :
  ~ In x (clients (self s)) ->
  ~ In (Accept x) evs ->
  frames_to x (wire (run evs s)) = frames_to x (wire s)
  /\ ~ In x (clients (self (run evs s))).
Proof.
  unfold run. revert s.
  induction evs as [|ev evs IH]; intros s Hx Hev; simpl; [now split|].
  assert (Hne : ev <> Accept x) by (intros ->; apply Hev; now left).
  destruct (@serve_unregistered s ev x Hx Hne) as [Hf Hc].
  destruct (IH (serve s ev) Hc) as [If Ic]; [intros H; apply Hev; now right|].
  split; [now rewrite If, Hf | exact Ic].
Qed.

End Unregistered.

(** Clients 2 and 3 are connected; 1 connects, the connection of 2 is
    torn down, then 1 switches outputs on and starts monitoring. *)
Lemma unregistered_writer_gets_nothing_witness :
  let lib := SpecLibrary.library in
  let s := run [Accept 1%nat; Readuntil 2%nat (Data [xfe; x0d])]
               (calm (connected [2; 3]%nat) temp_21) in
  let evs := [Readuntil 1%nat (Data (encode_frame output_on_5_20));
              Readuntil 2%nat (Data (encode_frame output_off_5));
              Readuntil 1%nat (Data (encode_frame start_monitoring_frame))] in
  ~ In 2%nat (clients (self s))
  /\ ~ In (Accept 2%nat) evs
  /\ map fst (wire (run evs s)) = [3; 1; 3; 1; 1; 3; 1; 3; 1]%nat
  /\ frames_to 2%nat (wire (run evs s)) = frames_to 2%nat (wire s)
  /\ ~ In 2%nat (clients (self (run evs s))).
Proof.
  intros lib s evs.
  assert (H1 : ~ In 2%nat (clients (self s))).
  { simpl. intros [H|[H|[]]]; discriminate H. }
  assert (H2 : ~ In (Accept 2%nat) evs).
  { simpl. intros [H|[H|[H|[]]]]; discriminate H. }
  split; [exact H1|]. split; [exact H2|]. split; [reflexivity|].
  apply (@unregistered_writer_gets_nothing lib evs s 2%nat H1 H2).
Defined.

(* ================================================================= *)
(** ** [notify_state_change], the whole of [handle_client], the zones *)

Section Connections.
Context {lib : SatelLibrary}.

(** X13: [notify_state_change] raises, before anything is written,
    when [partition_bytes] rejects the items.  Otherwise, provided no
    other task runs while it waits in a [drain], it returns normally,
    changes no attribute of the emulator, has written the frame once to
    every registered client whose write does not raise, in the order of
    the client set, and has logged the exception of every write and of
    every drain that raised. *)
Theorem notify_state_change_delivery command items meanwhile s :
  (forall c, In c (clients (self s)) -> meanwhile c = []) ->
  match partition_bytes items 4 with
  | None => notify_state_change command items meanwhile s = (Raise LibraryError, s)
  | Some data =>
      let r := notify_state_change command items meanwhile s in
      fst r = Return tt
      /\ self (snd r) = self s
      /\ wire (snd r)
         = wire s
           ++ map (fun c => (c, encode_frame (Message command data)))
                  (filter (fun c => negb (write_raises s c)) (clients (self s)))
      /\ logged (snd r)
         = logged s
           ++ flat_map (fun c =>
                          if write_raises s c
                          then [error_notifying_client (WriteError c)]
                          else if drain_raises s c
                               then [error_notifying_client (DrainError c)]
                               else [])
                       (clients (self s))
  end.
Proof.
  intros Hq. destruct (partition_bytes items 4) as [data|] eqn:H.
  - exact (notify_state_change_undisturbed command items meanwhile s H Hq).
  - unfold notify_state_change, bind. now rewrite H.
Qed.

Lemma mem_in (x : Writer) l : In x l -> mem x l = true.
Proof.
  intros H. unfold mem. apply existsb_exists. exists x.
  split; [exact H | apply Nat.eqb_refl].
Qed.

Lemma handle_client_enter_registers w s :
  mem w (clients (self (snd (handle_client_enter w s)))) = true
  /\ closed (snd (handle_client_enter w s)) = closed s
  /\ fst (handle_client_enter w s) = Return tt.
Proof.
  unfold handle_client_enter, clients_add, bind, logger, get_self, set_self.
  simpl. split; [|now split].
  destruct (mem w (clients (self s))) eqn:E; [exact E|].
  apply mem_in. apply in_app_iff. right. now left.
Qed.

(** The loop of a registered writer. *)
Lemma handle_client_loop_outcome w reads s :
  mem w (clients (self s)) = true ->
  let b := forallb (fun r => match received lib r with
                             | Some _ => true
                             | None => false
                             end) reads in
  let s' := snd (handle_client_loop w reads s) in
  fst (handle_client_loop w reads s) = Return b
  /\ if b then In w (clients (self s')) /\ closed s' = closed s
     else ~ In w (clients (self s')) /\ closed s' = closed s ++ [w].
Proof.
  revert s. induction reads as [|r rest IH]; intros s Hw.
  - simpl. split; [reflexivity|]. split; [apply mem_true; exact Hw | reflexivity].
  - cbn [forallb]. destruct (received lib r) as [m|] eqn:Hr; cbn [andb].
    + set (s1 := snd (process_command m w (snd (logger (debug_received w m) s)))).
      assert (E : handle_client_loop w (r :: rest) s = handle_client_loop w rest s1).
      { simpl. unfold bind. now rewrite (handle_client_step_go w r s Hr). }
      assert (Hc : clients (self s1) = clients (self s)).
      { subst s1. now rewrite process_command_self, effect_clients. }
      assert (Hcl : closed s1 = closed s).
      { subst s1. now rewrite process_command_closed. }
      rewrite E. rewrite <- Hcl. apply IH. now rewrite Hc.
    + assert (E : handle_client_loop w (r :: rest) s
                  = (Return false, snd (handle_client_finally w s))).
      { simpl. unfold bind at 1. rewrite (handle_client_step_stop w r s Hr).
        unfold bind. now rewrite (handle_client_finally_run w s Hw). }
      rewrite E, (handle_client_finally_run w s Hw). simpl.
      split; [reflexivity|]. split; [apply filter_self | reflexivity].
Qed.

(** X14: [handle_client] never ends with an exception.  It is still
    waiting for a read, with its writer registered and not closed by
    it, exactly when every read so far gave a frame that decodes; at
    the first read that fails, is empty or does not decode, it has
    removed its writer from the client set and closed it, once. *)
Theorem handle_client_outcome w reads s :
  let b := forallb (fun r => match received lib r with
                             | Some _ => true
                             | None => false
                             end) reads in
  let s' := snd (handle_client w reads s) in
  fst (handle_client w reads s) = Return b
  /\ if b then In w (clients (self s')) /\ closed s' = closed s
     else ~ In w (clients (self s')) /\ closed s' = closed s ++ [w].
Proof.
  intros b s'. subst b s'. unfold handle_client.
  destruct (handle_client_enter_registers w s) as (Hm & Hc & Hr).
  destruct (handle_client_enter w s) as [[[]|e] s0] eqn:E; simpl in Hm, Hc, Hr;
    [|discriminate].
  erewrite run_bind by exact E.
  destruct (handle_client_loop_outcome w reads s0 Hm) as [L1 L2].
  split; [exact L1|]. now rewrite Hc in L2.
Qed.

Lemma get_constant_dict (V : Type) (v : V) (l : list Z) k :
  Py.get k (map (fun i => (i, v)) l) = if existsb (Z.eqb k) l then Some v else None.
Proof.
  induction l as [|i r IH]; simpl; [reflexivity|].
  destruct (k =? i); simpl; [reflexivity | exact IH].
Qed.

Lemma range_mem lo hi k :
  0 <= lo ->
  existsb (Z.eqb k) (Py.range lo hi) = (lo <=? k) && (k <? hi).
Proof.
  intros Hlo. unfold Py.range.
  destruct (existsb (Z.eqb k) (map Z.of_nat (seq (Z.to_nat lo) (Z.to_nat (hi - lo)))))
    eqn:E.
  - apply existsb_exists in E. destruct E as [x [Hx Ex]].
    apply Z.eqb_eq in Ex. subst x. apply in_map_iff in Hx.
    destruct Hx as [n [Hn Hin]]. apply in_seq in Hin. symmetry.
    apply andb_true_iff. split; [apply Z.leb_le | apply Z.ltb_lt]; lia.
  - symmetry. apply not_true_is_false. intros H. apply andb_true_iff in H.
    destruct H as [H1 H2]. apply Z.leb_le in H1. apply Z.ltb_lt in H2.
    assert (Hin : In k (map Z.of_nat (seq (Z.to_nat lo) (Z.to_nat (hi - lo))))).
    { apply in_map_iff. exists (Z.to_nat k). split; [lia|]. apply in_seq. lia. }
    assert (T : existsb (Z.eqb k)
                  (map Z.of_nat (seq (Z.to_nat lo) (Z.to_nat (hi - lo)))) = true).
    { apply existsb_exists. exists k. split; [exact Hin | apply Z.eqb_refl]. }
    congruence.
Qed.

(** X16: no handler assigns a zone.  On an emulator whose zones are
    those of [__init__], after any sequence of connections and reads,
    every zone from 1 to 32 is there and inactive, and there is no
    other zone. *)
Theorem zones_always_inactive evs s k :
  zones (self s) = zones init ->
  Py.get k (zones (self (run evs s)))
  = if (1 <=? k) && (k <? 33) then Some false else None.
Proof.
  intros H. rewrite zones_never_change, H. simpl zones.
  unfold Py.dict_of_range. rewrite get_constant_dict, range_mem by lia.
  reflexivity.
Qed.

End Connections.

(** Writers 1, 2 and 3 are connected, the connection of 2 is lost, and
    nothing else happens during the drains: all three are written and
    the failure of 2 is logged. *)
Lemma notify_state_change_delivery_witness :
  let lib := SpecLibrary.library in
  let s := disconnected (connected [1; 2; 3]%nat) [2%nat] temp_21 in
  let r := notify_state_change OUTPUT_STATE [5; 20] (fun _ => []) s in
  (forall c, In c (clients (self s)) -> (fun _ : Writer => @nil Event) c = [])
  /\ fst r = Return tt
  /\ self (snd r) = self s
  /\ wire (snd r)
     = map (fun c => (c, encode_frame (Message OUTPUT_STATE [x08; x00; x10; x00])))
           [1; 2; 3]%nat
  /\ logged (snd r) = [error_notifying_client (DrainError 2%nat)].
Proof.
  intros lib s r.
  assert (Hq : forall c, In c (clients (self s)) ->
                         (fun _ : Writer => @nil Event) c = [])
    by (intros c _; reflexivity).
  split; [exact Hq|].
  exact (@notify_state_change_delivery lib OUTPUT_STATE [5; 20] (fun _ => []) s Hq).
Defined.

Lemma zones_always_inactive_witness :
  let lib := SpecLibrary.library in
  let s := calm init temp_21 in
  let evs := [Accept 1%nat;
              Readuntil 1%nat (Data (encode_frame output_on_5_20));
              Readuntil 1%nat (Data (encode_frame arm_mode_1_partitions_1_3))] in
  zones (self s) = zones init
  /\ Py.get 5 (zones (self (run evs s)))
     = if (1 <=? 5) && (5 <? 33) then Some false else None.
Proof.
  intros lib s evs. split; [reflexivity|].
  apply (@zones_always_inactive lib evs s 5 eq_refl).
Defined.

(* ================================================================= *)
(** ** The broadcast when no write raises, and the list of armed
       partitions *)

Section FanOut.
Context {lib : SatelLibrary}.

(** X17: [send_response] without a client, when no registered
    client's write raises, returns normally and has written the same
    frame exactly once to every registered client, in the order of the
    client set; no attribute of the emulator changes. *)
Theorem broadcast_reaches_every_client message s :
  (forall c, In c (clients (self s)) -> write_raises s c = false) ->
  fst (send_response message None s) = Return tt
  /\ self (snd (send_response message None s)) = self s
  /\ wire (snd (send_response message None s))
     = wire s ++ map (fun c => (c, encode_frame message)) (clients (self s)).
Proof.
  intros Hc.
  destruct (no_raising_client (write_raises s) (clients (self s)) Hc) as [F R].
  rewrite send_response_run. unfold after_send. simpl. rewrite F, R.
  repeat split.
Qed.

(** The partitions in ARMED_MODE0 after [for partition in parts:
    self.partitions[partition] = state]. *)
Lemma armed_after_set_all (d : Py.dict AlarmState.t) parts st p :
  NoDup (Py.keys d) ->
  In p (Py.keys_where (fun x => AlarmState.eqb x AlarmState.ARMED_MODE0)
                      (set_all parts st d))
  <-> if AlarmState.eqb st AlarmState.ARMED_MODE0
      then In p parts
           \/ In p (Py.keys_where
                      (fun x => AlarmState.eqb x AlarmState.ARMED_MODE0) d)
      else In p (Py.keys_where
                   (fun x => AlarmState.eqb x AlarmState.ARMED_MODE0) d)
           /\ ~ In p parts.
Proof.
  intros Hnd.
  assert (Hex : existsb (Z.eqb p) parts = true <-> In p parts).
  { rewrite existsb_exists. split.
    - intros [x [Hx Ex]]. apply Z.eqb_eq in Ex. now subst.
    - intros H. exists p. split; [exact H | apply Z.eqb_refl]. }
  pose proof (@keys_where_get AlarmState.t
                (fun x => AlarmState.eqb x AlarmState.ARMED_MODE0) d p Hnd) as Hold.
  pose proof (@keys_where_get AlarmState.t
                (fun x => AlarmState.eqb x AlarmState.ARMED_MODE0)
                (set_all parts st d) p
                (@set_all_keeps_NoDup AlarmState.t parts st _ Hnd)) as Hnew.
  cbv beta in Hold, Hnew. rewrite Hnew. clear Hnew. setoid_rewrite get_set_all.
  destruct (existsb (Z.eqb p) parts) eqn:E.
  - assert (Hin : In p parts) by (now apply Hex).
    destruct (AlarmState.eqb st AlarmState.ARMED_MODE0) eqn:Est; split.
    + intros _. now left.
    + intros _. exists st. now split.
    + intros [x [[= <-] Hx]]. congruence.
    + intros [_ Hn]. contradiction.
  - assert (Hout : ~ In p parts) by (intros H; apply Hex in H; congruence).
    rewrite <- Hold.
    destruct (AlarmState.eqb st AlarmState.ARMED_MODE0); split.
    + intros H. now right.
    + intros [H|H]; [contradiction | exact H].
    + intros H. now split.
    + intros [H _]. exact H.
Qed.

(** X18: what [arm] and [disarm] write when no write raises: the OK
    frame to every client, then to every client the ARMED_MODE0 frame
    of a list of partitions which, after an ARM command, holds the
    selected partitions and those that were in ARMED_MODE0 and, after
    DISARM, holds the partitions that were in ARMED_MODE0 and are not
    selected. *)
Theorem armed_partitions_after_command m w s parts :
  In (cmd m) [CMD_ARM_MODE_0; CMD_ARM_MODE_1; CMD_ARM_MODE_2; CMD_ARM_MODE_3;
              CMD_DISARM] ->
  list_set_bits m 8 4 = Some parts ->
  NoDup (Py.keys (partitions (self s))) ->
  (forall c, In c (clients (self s)) -> write_raises s c = false) ->
  let armed := Py.keys_where
                 (fun st => AlarmState.eqb st AlarmState.ARMED_MODE0)
                 (partitions (self s)) in
  exists broadcast,
    wire (snd (process_command m w s))
    = wire s
      ++ map (fun c => (c, encode_frame RESPONSE_OK)) (clients (self s))
      ++ map (fun c => (c, encode_frame (Message_partitions ARMED_MODE0 broadcast)))
             (clients (self s))
    /\ (cmd m <> CMD_DISARM ->
        forall p, In p broadcast <-> In p parts \/ In p armed)
    /\ (cmd m = CMD_DISARM ->
        forall p, In p broadcast <-> In p armed /\ ~ In p parts).
Proof.
  intros Hc Hl Hnd Hq armed. subst armed.
  assert (Hm : is_mutating (cmd m) = true /\ selection lib m = Some parts).
  { unfold selection. simpl in Hc.
    destruct Hc as [<-|[<-|[<-|[<-|[<-|[]]]]]]; now split. }
  destruct Hm as [Hm Hs].
  exists (Py.keys_where (fun st => AlarmState.eqb st AlarmState.ARMED_MODE0)
            (partitions (effect lib m (self s)))).
  split.
  - rewrite (mutating_success_wire m w s Hm (mutating_returns m w s Hm Hs Hq)).
    unfold snapshot. simpl in Hc.
    destruct Hc as [<-|[<-|[<-|[<-|[<-|[]]]]]]; reflexivity.
  - unfold effect. rewrite Hl. simpl in Hc.
    destruct Hc as [<-|[<-|[<-|[<-|[<-|[]]]]]]; simpl;
      (split; intros H; try discriminate H; try (now contradiction H);
       intros p; now rewrite armed_after_set_all by exact Hnd).
Qed.

End FanOut.

Lemma broadcast_reaches_every_client_witness :
  let lib := SpecLibrary.library in
  let s := calm (connected [1; 2; 3]%nat) temp_21 in
  (forall c, In c (clients (self s)) -> write_raises s c = false)
  /\ fst (send_response RESPONSE_OK None s) = Return tt
  /\ self (snd (send_response RESPONSE_OK None s)) = self s
  /\ wire (snd (send_response RESPONSE_OK None s))
     = wire s ++ map (fun c => (c, encode_frame RESPONSE_OK)) (clients (self s)).
Proof.
  intros lib s.
  assert (Hc : forall c, In c (clients (self s)) -> write_raises s c = false)
    by (intros c _; reflexivity).
  split; [exact Hc|].
  apply (@broadcast_reaches_every_client lib RESPONSE_OK s Hc).
Defined.

(** Partitions 1 and 3 are armed; DISARM for 1 and 3 is received. *)
Lemma armed_partitions_after_command_witness :
  let lib := SpecLibrary.library in
  let s := snd (process_command arm_mode_1_partitions_1_3 1%nat
                  (calm (connected [1; 2]%nat) temp_21)) in
  let armed := Py.keys_where
                 (fun st => AlarmState.eqb st AlarmState.ARMED_MODE0)
                 (partitions (self s)) in
  In (cmd disarm_partitions_1_3)
     [CMD_ARM_MODE_0; CMD_ARM_MODE_1; CMD_ARM_MODE_2; CMD_ARM_MODE_3; CMD_DISARM]
  /\ list_set_bits disarm_partitions_1_3 8 4 = Some [1; 3]
  /\ NoDup (Py.keys (partitions (self s)))
  /\ (forall c, In c (clients (self s)) -> write_raises s c = false)
  /\ armed = [1; 3]
  /\ exists broadcast,
       wire (snd (process_command disarm_partitions_1_3 2%nat s))
       = wire s
         ++ map (fun c => (c, encode_frame RESPONSE_OK)) (clients (self s))
         ++ map (fun c => (c, encode_frame
                                (Message_partitions ARMED_MODE0 broadcast)))
                (clients (self s))
       /\ (cmd disarm_partitions_1_3 <> CMD_DISARM ->
           forall p, In p broadcast <-> In p [1; 3] \/ In p armed)
       /\ (cmd disarm_partitions_1_3 = CMD_DISARM ->
           forall p, In p broadcast <-> In p armed /\ ~ In p [1; 3]).
Proof.
  intros lib s armed.
  assert (Hnd : NoDup (Py.keys (partitions (self s)))) by (simpl; distinct_keys).
  assert (Hq : forall c, In c (clients (self s)) -> write_raises s c = false)
    by (intros c _; reflexivity).
  assert (Hc : In (cmd disarm_partitions_1_3)
                  [CMD_ARM_MODE_0; CMD_ARM_MODE_1; CMD_ARM_MODE_2; CMD_ARM_MODE_3;
                   CMD_DISARM]) by (simpl; tauto).
  split; [exact Hc|]. split; [reflexivity|]. split; [exact Hnd|].
  split; [exact Hq|]. split; [reflexivity|].
  apply (@armed_partitions_after_command lib disarm_partitions_1_3 2%nat s [1; 3]
           Hc eq_refl Hnd Hq).
Defined.
